(** * Blushy: primary/fallback failover and resynchronisation (src/app.py)

    A shallow embedding of the failover code of [app.py]:
    the module-level flag [PRIMARY_DB_UP], the file [sql.log] written by
    the [logging] module, the engine listener [before_cursor_execute], the
    periodic job [check_primary_db], the replay
    [sync_data_from_fallback_to_primary], the URI choice of [create_app]
    and its health endpoint.

    The database itself is a parameter: a type [DB] of store contents, a
    function [run] that says what executing a statement on a store does,
    and a function [commit_raises] that says whether a commit raises.
    Texts are sequences of characters; where a statement depends on how
    Python splits lines or strips white space it is made for ASCII texts
    without carriage returns. *)

From Stdlib Require Import String Ascii List Arith Lia Bool.
Import ListNotations.
Open Scope string_scope.

(** ** Text helpers (Python [str] methods used by the source) *)

Definition newline : ascii := "010"%char.
Definition NL : string := String newline EmptyString.

(** [s[n:]] *)
Fixpoint string_drop (n : nat) (s : string) : string :=
  match n, s with
  | 0, _ => s
  | S _, EmptyString => EmptyString
  | S k, String _ s' => string_drop k s'
  end.

(** The first line of a non-empty text, its line end included, and the rest.
    A line ends at a line feed; the reader of line 48 ends one at a carriage
    return as well, so the statements that depend on where a line ends ask
    for texts without carriage returns ([one_line] below). *)
Fixpoint take_line (s : string) : string * string :=
  match s with
  | EmptyString => (EmptyString, EmptyString)
  | String c s' =>
      if Ascii.eqb c newline then (String c EmptyString, s')
      else let (l, r) := take_line s' in (String c l, r)
  end.

(** [f.readline()]: [None] at end of file. *)
Definition readline (s : string) : option (string * string) :=
  match s with
  | EmptyString => None
  | _ => Some (take_line s)
  end.

(** ASCII white space, as [str.isspace] has it.  Beyond ASCII Python strips
    more characters (U+00A0 among them): the statements that depend on what
    [strip] removes ask for ASCII texts ([isascii] below). *)
Definition is_space (c : ascii) : bool :=
  let n := nat_of_ascii c in
  (Nat.leb 9 n && Nat.leb n 13) || (Nat.leb 28 n && Nat.leb n 32).

Fixpoint lstrip (s : string) : string :=
  match s with
  | EmptyString => EmptyString
  | String c s' => if is_space c then lstrip s' else s
  end.

Fixpoint rstrip (s : string) : string :=
  match s with
  | EmptyString => EmptyString
  | String c s' =>
      match rstrip s' with
      | EmptyString => if is_space c then EmptyString else String c EmptyString
      | r => String c r
      end
  end.

(** [s.strip()] *)
Definition strip (s : string) : string := rstrip (lstrip s).

(** [c] does not occur in [s]. *)
Fixpoint lacks (c : ascii) (s : string) : bool :=
  match s with
  | EmptyString => true
  | String d s' => negb (Ascii.eqb d c) && lacks c s'
  end.

(** A text file opened as line 48 opens it ends a line at a carriage return
    as well; [one_line s] says that [s] holds no line end of either kind. *)
Definition carriage_return : ascii := "013"%char.

Definition one_line (s : string) : bool :=
  lacks newline s && lacks carriage_return s.

(** [s.isascii()] *)
Fixpoint isascii (s : string) : bool :=
  match s with
  | EmptyString => true
  | String c s' => Nat.ltb (nat_of_ascii c) 128 && isascii s'
  end.

(** ** Exceptions, log records, return values *)

(** Exceptions (subclasses of [Exception]) as the two handlers of the source
    tell them apart; the text is what [f"{e}"] prints. *)
Inductive exn : Type :=
| SQLAlchemyError (msg : string)
| OtherException (msg : string).

Definition exn_str (e : exn) : string :=
  match e with
  | SQLAlchemyError m => m
  | OtherException m => m
  end.

Inductive level : Type := INFO | ERROR.

Record LogRecord : Type := mkRecord { lvl : level; message : string }.

Definition is_error (r : LogRecord) : bool :=
  match lvl r with ERROR => true | INFO => false end.

(** A Python function without a [return] statement returns [None]. *)
Inductive pyvalue : Type := PyNone.

(** ** create_app: choice of the database URI (lines 64-72) *)

Definition fallback_uri : string := "sqlite:///fallback.db".

Definition create_app_uri (flag : bool) (DATABASE_URL : option string) : string :=
  if flag then
    let database_url :=
      match DATABASE_URL with
      | Some u => u
      | None => "sqlite:///blushy.db"
      end in
    if String.prefix "postgres://" database_url
    then "postgresql://" ++ string_drop 11 database_url
    else database_url
  else fallback_uri.

(** The same choice with the [str] methods the source calls. *)

(** [os.environ.get(key, default)] *)
Definition os_environ_get (value : option string) (default : string) : string :=
  match value with
  | Some v => v
  | None => default
  end.

(** [s.startswith(p)] *)
Definition startswith (s p : string) : bool := String.prefix p s.

(** [s.replace(old, new, 1)]: the leftmost occurrence of [old] is replaced. *)
Fixpoint replace_once (old new s : string) : string :=
  if String.prefix old s then new ++ string_drop (String.length old) s
  else
    match s with
    | EmptyString => EmptyString
    | String c s' => String c (replace_once old new s')
    end.

(** [app.config['SQLALCHEMY_DATABASE_URI']] as lines 65-72 set it. *)
Definition SQLALCHEMY_DATABASE_URI (flag : bool) (DATABASE_URL : option string)
    : string :=
  if flag then
    let database_url := os_environ_get DATABASE_URL "sqlite:///blushy.db" in
    let database_url :=
      if startswith database_url "postgres://"
      then replace_once "postgres://" "postgresql://" database_url
      else database_url in
    database_url
  else "sqlite:///fallback.db".

(** The values [jsonify] is given by the health endpoint. *)
Inductive json : Type :=
| JString (s : string)
| JBool (b : bool).

(** The record that line 38 logs. *)
Definition is_down_record (r : LogRecord) : bool :=
  is_error r && String.prefix "Primary database is down: " (message r).

(** ** Stores and process state *)

(** What [execute(statement, parameters)] does on a store of contents [DB]:
    it returns with the new contents, or raises; [at_cursor] tells whether
    the statement had reached the cursor (so that the engine event had
    fired) when the exception was raised. *)
Inductive outcome (DB : Type) : Type :=
| Returned (d : DB)
| Raised (at_cursor : bool) (e : exn).

Arguments Returned {DB} d.
Arguments Raised {DB} at_cursor e.

Record World (DB : Type) : Type := mkWorld {
  PRIMARY_DB_UP : bool;            (* line 18 *)
  sql_log : string;                (* contents of the file sql.log, which
                                      line 12 creates and which is there
                                      whenever it is opened *)
  emitted : list LogRecord;        (* every logging call so far, in order *)
  engine_uri : string;             (* app.config['SQLALCHEMY_DATABASE_URI'] *)
  stores : string -> DB            (* committed contents of the store at each URI *)
}.

Arguments mkWorld {DB} _ _ _ _ _.
Arguments PRIMARY_DB_UP {DB} w.
Arguments sql_log {DB} w.
Arguments emitted {DB} w.
Arguments engine_uri {DB} w.
Arguments stores {DB} w u.

(** Program points of [sync_data_from_fallback_to_primary] (lines 47-57). *)
Inductive sync_pc (DB : Type) : Type :=
| Reading (pos : nat) (session : DB)   (* line 49, [pos] characters of f consumed *)
| Committing (session : DB)            (* line 52 *)
| Truncating                           (* line 54 *)
| Succeeding                           (* line 55 *)
| Handling (e : exn)                   (* line 57 *)
| Halted (completed : bool).           (* the function has returned *)

Arguments Reading {DB} pos session.
Arguments Committing {DB} session.
Arguments Truncating {DB}.
Arguments Succeeding {DB}.
Arguments Handling {DB} e.
Arguments Halted {DB} completed.


(** Number of adjacent pairs [(a, b)] in a history of the flag. *)
Fixpoint edges (a b : bool) (l : list bool) : nat :=
  match l with
  | x :: ((y :: _) as t) =>
      (if Bool.eqb x a && Bool.eqb y b then 1 else 0) + edges a b t
  | _ => 0
  end.

(** ** Two small databases on which the model can be run *)

Inductive link : Type := Up | Down | Broken.

Record ToyDB : Type := mkToy { reach : link; rows : list (string * list string) }.

(** Reads leave the rows alone, inserts add a row, anything else is a syntax
    error; an unreachable server raises before the cursor is reached. *)
Definition toy_run (statement : string) (parameters : list string) (d : ToyDB)
    : outcome ToyDB :=
  match reach d with
  | Down => Raised false (SQLAlchemyError "connection refused")
  | Broken => Raised false (OtherException "timed out")
  | Up =>
      if String.prefix "SELECT" statement then Returned d
      else if String.prefix "INSERT" statement
      then Returned (mkToy Up (rows d ++ [(statement, parameters)])%list)
      else Raised true (SQLAlchemyError "syntax error")
  end.

(** Its commit fails when the server cannot be reached. *)
Definition toy_commit (d : ToyDB) : option exn :=
  match reach d with
  | Up => None
  | Down => Some (SQLAlchemyError "connection refused")
  | Broken => Some (OtherException "timed out")
  end.

(** A server that has gone away under an open connection: every statement
    reaches the cursor and raises there. *)
Definition gone_run (statement : string) (parameters : list string) (d : unit)
    : outcome unit :=
  Raised true (SQLAlchemyError "server closed the connection unexpectedly").

(** A store that accepts whatever text it is given. *)
Definition lenient_run (statement : string) (parameters : list string)
    (d : list string) : outcome (list string) :=
  Returned (d ++ [statement])%list.

Definition stamp : string := "2024-01-01 00:00:00,000".

Definition toy_stores (primary : ToyDB) (u : string) : ToyDB :=
  if String.eqb u "sqlite:///blushy.db" then primary else mkToy Up [].

(** Concrete process states for the toy databases. *)

Definition primary_uri : string := "sqlite:///blushy.db".

Definition insert_hi : string := "INSERT INTO message VALUES (?)".

(** The flag is down, nothing is logged yet and the server answers. *)
Definition toy_quiet : World ToyDB :=
  mkWorld false "" [] primary_uri (toy_stores (mkToy Up [])).

(** The flag is down, one insert was executed and logged, the server answers. *)
Definition toy_outage : World ToyDB :=
  mkWorld false (stamp ++ " - " ++ insert_hi ++ NL) [mkRecord INFO insert_hi]
          primary_uri (toy_stores (mkToy Up [(insert_hi, ["hi"])])).

(** The flag is up and sql.log holds one statement the store accepts. *)
Definition toy_replayable : World ToyDB :=
  mkWorld true (insert_hi ++ NL) [] primary_uri (toy_stores (mkToy Up [])).

(** The state after an outage that a run of the job has seen and an insert
    executed once the server answers again: the flag is down, and sql.log
    holds the record of the outage and that of the insert. *)
Definition toy_fallen : World ToyDB :=
  mkWorld false
    (stamp ++ " - Primary database is down: connection refused" ++ NL
       ++ stamp ++ " - " ++ insert_hi ++ NL)
    [mkRecord ERROR "Primary database is down: connection refused";
     mkRecord INFO insert_hi]
    primary_uri
    (fun u =>
       if String.eqb u primary_uri then mkToy Up [(insert_hi, ["hi"])]
       else toy_stores (mkToy Up []) u).

(** The flag is down and sql.log holds one line, over the lenient store. *)
Definition lenient_outage : World (list string) :=
  mkWorld false ("a" ++ NL) [] primary_uri (fun _ => []).

Section Failover.

Variable DB : Type.
Variable run : string -> list string -> DB -> outcome DB.

(** [db.session.commit()] on a session with this view: the exception it
    raises, when it raises. *)
Variable commit_raises : DB -> option exn.

(** [%(asctime)s] of the log format, kept as an opaque text. *)
Variable asctime : string.

Local Abbreviation World := (World DB).

Definition set_flag (b : bool) (w : World) : World :=
  mkWorld b (sql_log w) (emitted w) (engine_uri w) (stores w).

(** [f.truncate(0)] *)
Definition truncate (w : World) : World :=
  mkWorld (PRIMARY_DB_UP w) EmptyString (emitted w) (engine_uri w) (stores w).

(** [db.session.commit()] on the one engine of the application. *)
Definition commit (d : DB) (w : World) : World :=
  mkWorld (PRIMARY_DB_UP w) (sql_log w) (emitted w) (engine_uri w)
          (fun u => if String.eqb u (engine_uri w) then d else stores w u).

(** The store the engine is bound to. *)
Definition bound_store (w : World) : DB := stores w (engine_uri w).

(** ** logging (lines 12-13): one line per record, appended to sql.log *)
Definition format_record (msg : string) : string :=
  asctime ++ " - " ++ msg ++ NL.

Definition logging_emit (l : level) (msg : string) (w : World) : World :=
  mkWorld (PRIMARY_DB_UP w) (sql_log w ++ format_record msg)
          (emitted w ++ [mkRecord l msg]) (engine_uri w) (stores w).

Definition logging_info := logging_emit INFO.
Definition logging_error := logging_emit ERROR.

(** ** The engine listener (lines 92-99) *)
Definition before_cursor_execute
    (statement : string) (parameters : list string) (w : World) : World :=
  if negb (PRIMARY_DB_UP w) then logging_info statement w else w.

(** [db.session.execute]: the listener fires when the statement reaches
    the cursor, before the statement runs on the session's view [view]. *)
Definition session_execute
    (statement : string) (parameters : list string) (view : DB) (w : World)
    : World * outcome DB :=
  match run statement parameters view with
  | Returned d => (before_cursor_execute statement parameters w, Returned d)
  | Raised true e => (before_cursor_execute statement parameters w, Raised true e)
  | Raised false e => (w, Raised false e)
  end.

(** A statement issued by application code (the blueprints, which are not
    part of app.py) through the one engine, committed when it succeeds. *)
Definition execute
    (statement : string) (parameters : list string) (w : World)
    : World * outcome DB :=
  match session_execute statement parameters (bound_store w) w with
  | (w', Returned d) => (commit d w', Returned d)
  | (w', Raised c e) => (w', Raised c e)
  end.

(** ** sync_data_from_fallback_to_primary (lines 42-57) *)

(** One step of the function.  The reader [f] sees whatever sql.log holds
    when it asks for its next line, the lines appended since it was opened
    included. *)
Definition sync_step (pc : sync_pc DB) (w : World) : sync_pc DB * World :=
  match pc with
  | Reading pos session =>
      match readline (string_drop pos (sql_log w)) with
      | None => (Committing session, w)
      | Some (line, _) =>
          match session_execute (strip line) [] session w with
          | (w', Returned d) => (Reading (pos + String.length line) d, w')
          | (w', Raised _ e) => (Handling e, w')
          end
      end
  | Committing session =>
      match commit_raises session with
      | None => (Truncating, commit session w)
      | Some e => (Handling e, w)
      end
  | Truncating => (Succeeding, truncate w)
  | Succeeding => (Halted true, logging_info "Data synchronization successful." w)
  | Handling e =>
      (Halted false,
       logging_error ("Data synchronization failed: " ++ exn_str e) w)
  | Halted b => (Halted b, w)
  end.

(** The function run to its return; [None] when [fuel] steps do not reach it.
    The boolean (did the [try] body complete) is not visible to a caller. *)
Fixpoint sync_from (fuel : nat) (pc : sync_pc DB) (w : World)
    : option (World * bool) :=
  match pc with
  | Halted b => Some (w, b)
  | _ =>
      match fuel with
      | 0 => None
      | S k => let (pc', w') := sync_step pc w in sync_from k pc' w'
      end
  end.

Definition sync_start (w : World) : sync_pc DB := Reading 0 (bound_store w).

Definition sync_data_from_fallback_to_primary (fuel : nat) (w : World)
    : option (World * pyvalue) :=
  match sync_from fuel (sync_start w) w with
  | Some (w', _) => Some (w', PyNone)
  | None => None
  end.



(** ** check_primary_db (lines 21-39)

    The result is [None] when the call does not return within [fuel] steps
    of the replay, and otherwise the new state with the exception that
    left the function, if one did. *)
Definition check_primary_db (fuel : nat) (w : World)
    : option (World * option exn) :=
  match session_execute "SELECT 1" [] (bound_store w) w with
  | (w1, Returned _) =>
      if negb (PRIMARY_DB_UP w1) then
        match sync_data_from_fallback_to_primary fuel
                (logging_info
                   "Primary database is back online. Starting data synchronization..."
                   w1) with
        | Some (w2, _) => Some (set_flag true w2, None)
        | None => None
        end
      else Some (set_flag true w1, None)
  | (w1, Raised _ (SQLAlchemyError m)) =>
      Some (set_flag false
              (if PRIMARY_DB_UP w1
               then logging_error ("Primary database is down: " ++ m) w1
               else w1),
            None)
  | (w1, Raised _ (OtherException m)) => Some (w1, Some (OtherException m))
  end.

(** ** Module initialisation (lines 18 and 108)

    The state when [create_app] has configured the URI.  What the scheduler
    logs when it is started, and later around each run of the job, goes
    through the root logger of line 12 into sql.log like the records of
    app.py: these are the steps [reach_library] and [Library] below. *)
Definition startup (DATABASE_URL : option string) (log0 : string)
    (stores0 : string -> DB) : World :=
  let flag := true in
  mkWorld flag log0 [] (create_app_uri flag DATABASE_URL) stores0.

(** The store behind a URI changing outside the program (the server going
    down or coming back, or other clients writing). *)
Definition set_stores (st : string -> DB) (w : World) : World :=
  mkWorld (PRIMARY_DB_UP w) (sql_log w) (emitted w) (engine_uri w) st.

(** The state in which [check_primary_db] calls the replay (lines 31-34). *)
Definition recovery_entry (w : World) : World :=
  logging_info
    "Primary database is back online. Starting data synchronization..."
    (before_cursor_execute "SELECT 1" [] w).

(** [n] consecutive runs of the job; the flag after each of them. *)
Fixpoint monitor (fuel n : nat) (w : World) : option World :=
  match n with
  | 0 => Some w
  | S k =>
      match check_primary_db fuel w with
      | Some (w', _) => monitor fuel k w'
      | None => None
      end
  end.

Fixpoint monitor_flags (fuel n : nat) (w : World) : list bool :=
  match n with
  | 0 => []
  | S k =>
      match check_primary_db fuel w with
      | Some (w', _) => PRIMARY_DB_UP w' :: monitor_flags fuel k w'
      | None => []
      end
  end.

(** Statements executed one after the other by application code. *)
Definition execute_all (l : list (string * list string)) (w : World) : World :=
  fold_left (fun w sp => fst (execute (fst sp) (snd sp) w)) l w.

(** The states the process can be in. *)
Inductive reachable (DATABASE_URL : option string) (log0 : string)
    (stores0 : string -> DB) : World -> Prop :=
| reach_startup : reachable DATABASE_URL log0 stores0
                    (startup DATABASE_URL log0 stores0)
| reach_check : forall fuel w w' r,
    reachable DATABASE_URL log0 stores0 w ->
    check_primary_db fuel w = Some (w', r) ->
    reachable DATABASE_URL log0 stores0 w'
| reach_execute : forall statement parameters w,
    reachable DATABASE_URL log0 stores0 w ->
    reachable DATABASE_URL log0 stores0 (fst (execute statement parameters w))
| reach_outside : forall st w,
    reachable DATABASE_URL log0 stores0 w ->
    reachable DATABASE_URL log0 stores0 (set_stores st w)
| reach_library : forall l msg w,
    reachable DATABASE_URL log0 stores0 w ->
    reachable DATABASE_URL log0 stores0 (logging_emit l msg w).

(** Did the statement reach the cursor. *)
Definition at_cursor_of (o : outcome DB) : bool :=
  match o with
  | Returned _ => true
  | Raised c _ => c
  end.

(** Past the commit the function can only complete. *)
Definition past_loop (pc : sync_pc DB) : bool :=
  match pc with
  | Truncating | Succeeding | Halted true => true
  | _ => false
  end.

(** What a sequence of statements adds to sql.log while the flag is down:
    the record of each statement that reached the cursor, in order. *)
Fixpoint fallback_records (l : list (string * list string)) (w : World)
    : string :=
  match l with
  | [] => ""
  | sp :: t =>
      (if at_cursor_of (run (fst sp) (snd sp) (bound_store w))
       then format_record (fst sp) else "")
      ++ fallback_records t (fst (execute (fst sp) (snd sp) w))
  end.


(** The lines of sql.log that a sequence of log messages makes. *)
Fixpoint records (l : list string) : string :=
  match l with
  | [] => ""
  | x :: t => format_record x ++ records t
  end.

(** The store rejects whatever one-line text comes out of the log format,
    as an SQL engine does with a line that starts with a time stamp. *)
Definition rejects_records : Prop :=
  forall x d, lacks newline x = true ->
    exists c e, run (strip (format_record x)) [] d = Raised c e.

(** ** The health endpoint (lines 83-85); keys in the order of the dict,
    [JSON_SORT_KEYS] being off. *)
Definition health_check (w : World) : list (string * json) :=
  [("status", JString "ok"); ("primary_db_up", JBool (PRIMARY_DB_UP w))].

(** ** The process over time: runs of the scheduled job (line 103),
    statements of the application, and changes of the stores from outside. *)
Inductive event : Type :=
| Job (fuel : nat)
| Statement (statement : string) (parameters : list string)
| Outside (st : string -> DB).

(** An exception that leaves the job is caught by the scheduler, which goes
    on with the next run.  A [Job] is the call of [check_primary_db] alone:
    the records the scheduler logs around it are [Library] entries. *)
Definition step_event (e : event) (w : World) : option World :=
  match e with
  | Job fuel =>
      match check_primary_db fuel w with
      | Some (w', _) => Some w'
      | None => None
      end
  | Statement statement parameters =>
      Some (fst (execute statement parameters w))
  | Outside st => Some (set_stores st w)
  end.

(** The states after each event; [None] when a run of the job does not
    return within its fuel. *)
Fixpoint run_events (l : list event) (w : World) : option (list World) :=
  match l with
  | [] => Some []
  | e :: t =>
      match step_event e w with
      | Some w' =>
          match run_events t w' with
          | Some ws => Some (w' :: ws)
          | None => None
          end
      | None => None
      end
  end.

(** What else is written to sql.log: the file handler of line 12 is on the
    root logger, so the records of library code (the scheduler when it is
    started, before and after each run of the job and when the job raises,
    the HTTP server) are appended to the file like those of app.py. *)
Inductive entry : Type :=
| Program (e : event)
| Library (l : level) (msg : string).

Definition step_entry (x : entry) (w : World) : option World :=
  match x with
  | Program e => step_event e w
  | Library l msg => Some (logging_emit l msg w)
  end.

Fixpoint run_entries (l : list entry) (w : World) : option (list World) :=
  match l with
  | [] => Some []
  | x :: t =>
      match step_entry x w with
      | Some w' =>
          match run_entries t w' with
          | Some ws => Some (w' :: ws)
          | None => None
          end
      | None => None
      end
  end.

Fixpoint library_records (l : list entry) : list LogRecord :=
  match l with
  | [] => []
  | Program _ :: t => library_records t
  | Library lv msg :: t => mkRecord lv msg :: library_records t
  end.

(** The lines a reader of the text gets, line ends included. *)
Fixpoint lines_from (fuel : nat) (s : string) : list string :=
  match fuel with
  | 0 => []
  | S k =>
      match readline s with
      | None => []
      | Some (line, rest) => line :: lines_from k rest
      end
  end.

Definition file_lines (s : string) : list string :=
  lines_from (String.length s) s.

(** The loop of lines 49-51 on a session, without the listener: each line,
    stripped, is executed with no parameters; the first exception ends it. *)
Fixpoint run_lines (l : list string) (d : DB) : outcome DB :=
  match l with
  | [] => Returned d
  | line :: t =>
      match run (strip line) [] d with
      | Returned d' => run_lines t d'
      | Raised c e => Raised c e
      end
  end.

(** * Facts *)

(** ** Texts *)

Lemma append_assoc (a b c : string) : (a ++ b) ++ c = a ++ b ++ c.
Proof. induction a as [|x a IH]; simpl; [reflexivity | now rewrite IH]. Qed.

Lemma append_empty_r (a : string) : a ++ "" = a.
Proof. induction a as [|x a IH]; simpl; [reflexivity | now rewrite IH]. Qed.

Lemma length_append (a b : string) :
  String.length (a ++ b) = String.length a + String.length b.
Proof. induction a as [|x a IH]; simpl; [reflexivity | now rewrite IH]. Qed.

Lemma append_eq_empty (a b : string) : a ++ b = "" -> a = "" /\ b = "".
Proof. destruct a; simpl; [auto | discriminate]. Qed.

Lemma drop_append (n : nat) (a b : string) :
  n <= String.length a -> string_drop n (a ++ b) = string_drop n a ++ b.
Proof.
  revert a; induction n as [|n IH]; intros a Hn; [reflexivity|].
  destruct a as [|x a]; simpl in *; [lia | apply IH; lia].
Qed.

Lemma drop_length (a : string) : string_drop (String.length a) a = "".
Proof. induction a; simpl; auto. Qed.

Lemma drop_length_append (a b : string) :
  string_drop (String.length a) (a ++ b) = b.
Proof. induction a; simpl; auto. Qed.

Lemma drop_drop (n m : nat) (s : string) :
  string_drop m (string_drop n s) = string_drop (n + m) s.
Proof.
  revert s; induction n as [|n IH]; intros s; [reflexivity|].
  destruct s as [|x s]; simpl; [now destruct m | apply IH].
Qed.

Lemma length_drop (n : nat) (s : string) :
  String.length (string_drop n s) = String.length s - n.
Proof.
  revert s; induction n as [|n IH]; intros s; simpl; [lia|].
  destruct s as [|x s]; simpl; [reflexivity | apply IH].
Qed.

Lemma take_line_split (s l r : string) : take_line s = (l, r) -> s = l ++ r.
Proof.
  revert l r; induction s as [|c s IH]; simpl; intros l r H.
  - now inversion H.
  - destruct (Ascii.eqb c newline).
    + now inversion H.
    + destruct (take_line s) as [l' r'] eqn:E. inversion H; subst.
      simpl. f_equal. now apply IH.
Qed.

Lemma take_line_rest (s l r : string) :
  take_line s = (l, r) -> r = string_drop (String.length l) s.
Proof.
  intros H. rewrite (take_line_split _ _ _ H).
  now rewrite drop_length_append.
Qed.

Lemma take_line_progress (c : ascii) (s l r : string) :
  take_line (String c s) = (l, r) -> 1 <= String.length l.
Proof.
  simpl. destruct (Ascii.eqb c newline).
  - intros H; inversion H; simpl; lia.
  - destruct (take_line s); intros H; inversion H; simpl; lia.
Qed.

(** A text without a line end, followed by one, is read back as one line. *)
Lemma take_line_one (a rest : string) :
  lacks newline a = true -> take_line (a ++ NL ++ rest) = (a ++ NL, rest).
Proof.
  induction a as [|c a IH]; cbn [append take_line lacks]; intros H.
  - reflexivity.
  - apply andb_prop in H as [Hc Ha].
    destruct (Ascii.eqb c newline); [discriminate|].
    now rewrite (IH Ha).
Qed.

Lemma lacks_append (c : ascii) (a b : string) :
  lacks c (a ++ b) = lacks c a && lacks c b.
Proof.
  induction a as [|x a IH]; simpl; [reflexivity|].
  now rewrite IH, andb_assoc.
Qed.

(** ** What one statement does to the process state *)

Lemma session_execute_flag st ps view w :
  PRIMARY_DB_UP (fst (session_execute st ps view w)) = PRIMARY_DB_UP w.
Proof.
  unfold session_execute, before_cursor_execute.
  destruct (run st ps view) as [d|[|] e]; destruct (PRIMARY_DB_UP w) eqn:E;
    simpl; auto.
Qed.

Lemma session_execute_uri st ps view w :
  engine_uri (fst (session_execute st ps view w)) = engine_uri w.
Proof.
  unfold session_execute, before_cursor_execute.
  destruct (run st ps view) as [d|[|] e]; destruct (PRIMARY_DB_UP w);
    reflexivity.
Qed.

Lemma session_execute_stores st ps view w :
  stores (fst (session_execute st ps view w)) = stores w.
Proof.
  unfold session_execute, before_cursor_execute.
  destruct (run st ps view) as [d|[|] e]; destruct (PRIMARY_DB_UP w);
    reflexivity.
Qed.

Lemma session_execute_outcome st ps view w :
  snd (session_execute st ps view w) = run st ps view.
Proof.
  unfold session_execute.
  destruct (run st ps view) as [d|[|] e]; reflexivity.
Qed.

Lemma session_execute_log st ps view w :
  sql_log (fst (session_execute st ps view w)) =
  sql_log w ++
    (if negb (PRIMARY_DB_UP w) && at_cursor_of (run st ps view)
     then format_record st else "").
Proof.
  unfold session_execute, before_cursor_execute.
  destruct (run st ps view) as [d|[|] e]; destruct (PRIMARY_DB_UP w);
    simpl; now rewrite ?append_empty_r.
Qed.

Lemma session_execute_up st ps view w :
  PRIMARY_DB_UP w = true -> fst (session_execute st ps view w) = w.
Proof.
  intros H. unfold session_execute, before_cursor_execute. rewrite H.
  destruct (run st ps view) as [d|[|] e]; reflexivity.
Qed.

Lemma session_execute_down_returned st ps view w d :
  PRIMARY_DB_UP w = false -> run st ps view = Returned d ->
  session_execute st ps view w = (logging_info st w, Returned d).
Proof.
  intros H R. unfold session_execute, before_cursor_execute.
  now rewrite R, H.
Qed.

(** ** The replay *)

Lemma sync_step_frame pc w :
  PRIMARY_DB_UP (snd (sync_step pc w)) = PRIMARY_DB_UP w /\
  engine_uri (snd (sync_step pc w)) = engine_uri w.
Proof.
  destruct pc as [pos s| s | | | e | b]; simpl; auto.
  - destruct (readline (string_drop pos (sql_log w))) as [[line rest]|]; auto.
    pose proof (session_execute_flag (strip line) [] s w) as F.
    pose proof (session_execute_uri (strip line) [] s w) as U.
    destruct (session_execute (strip line) [] s w) as [w1 [d|c e]]; auto.
  - destruct (commit_raises s); auto.
Qed.

Lemma sync_from_frame fuel : forall pc w w' b,
  sync_from fuel pc w = Some (w', b) ->
  PRIMARY_DB_UP w' = PRIMARY_DB_UP w /\ engine_uri w' = engine_uri w.
Proof.
  induction fuel as [|k IH]; intros pc w w' b H.
  - destruct pc; simpl in H; try discriminate. now inversion H.
  - destruct pc as [pos s| s | | | e | c];
      try (simpl in H; inversion H; subst; now auto);
      cbn [sync_from] in H;
      match type of H with
      | (let (_, _) := sync_step ?p w in _) = _ =>
          pose proof (sync_step_frame p w) as [F U];
          destruct (sync_step p w) as [pc1 w1]; simpl in F, U;
          apply IH in H as [F' U']; split; congruence
      end.
Qed.

Lemma sync_from_past_loop fuel : forall pc w w' b,
  past_loop pc = true -> sync_from fuel pc w = Some (w', b) -> b = true.
Proof.
  induction fuel as [|k IH]; intros pc w w' b P H.
  - destruct pc as [pos s| s | | | e | []]; simpl in *; try discriminate.
    now inversion H.
  - destruct pc as [pos s| s | | | e | []]; simpl in *; try discriminate;
      try (now inversion H); eapply IH; try eassumption; reflexivity.
Qed.

(** A replay that did not complete committed nothing and only appended
    to sql.log. *)
Lemma sync_from_failed fuel : forall pc w w',
  sync_from fuel pc w = Some (w', false) ->
  stores w' = stores w /\ exists t, sql_log w' = sql_log w ++ t.
Proof.
  induction fuel as [|k IH]; intros pc w w' H.
  - destruct pc; simpl in H; try discriminate. inversion H; subst.
    split; [reflexivity | exists ""; now rewrite append_empty_r].
  - destruct pc as [pos s| s | | | e | c].
    + cbn [sync_from sync_step] in H.
      destruct (readline (string_drop pos (sql_log w))) as [[line rest]|].
      * pose proof (session_execute_stores (strip line) [] s w) as S1.
        pose proof (session_execute_log (strip line) [] s w) as L1.
        destruct (session_execute (strip line) [] s w) as [w1 [d|c e]];
          simpl in S1, L1; apply IH in H as [S2 [t L2]];
          (split; [congruence|]);
          eexists; rewrite L2, L1, append_assoc; reflexivity.
      * apply IH in H. exact H.
    + cbn [sync_from sync_step] in H.
      destruct (commit_raises s) as [e|].
      * apply IH in H. exact H.
      * apply sync_from_past_loop in H; [discriminate | reflexivity].
    + apply sync_from_past_loop in H; [discriminate | reflexivity].
    + apply sync_from_past_loop in H; [discriminate | reflexivity].
    + cbn [sync_from sync_step] in H. apply IH in H as [S2 [t L2]].
      split; [exact S2|]. simpl in L2.
      eexists; rewrite L2, append_assoc; reflexivity.
    + simpl in H. inversion H; subst.
      split; [reflexivity | exists ""; now rewrite append_empty_r].
Qed.

(** More fuel does not change a result. *)
Lemma sync_from_more fuel : forall pc w r,
  sync_from fuel pc w = Some r -> sync_from (S fuel) pc w = Some r.
Proof.
  induction fuel as [|k IH]; intros pc w r H.
  - destruct pc; simpl in *; try discriminate; assumption.
  - destruct pc; try (simpl in *; assumption);
      cbn [sync_from] in H |- *;
      match goal with
      | |- (let (_, _) := sync_step ?p w in _) = _ =>
          destruct (sync_step p w) as [pc1 w1]; now apply IH
      end.
Qed.

(** ** The monitor *)

Lemma check_recovering fuel w d :
  PRIMARY_DB_UP w = false ->
  run "SELECT 1" [] (bound_store w) = Returned d ->
  check_primary_db fuel w =
  match sync_from fuel (sync_start (recovery_entry w)) (recovery_entry w) with
  | Some (w2, _) => Some (set_flag true w2, None)
  | None => None
  end.
Proof.
  intros F R. unfold check_primary_db.
  rewrite (session_execute_down_returned _ _ _ _ _ F R).
  cbn [PRIMARY_DB_UP logging_info logging_emit negb]. rewrite F. cbn [negb].
  unfold sync_data_from_fallback_to_primary, recovery_entry,
    before_cursor_execute. rewrite F. cbn [negb].
  destruct (sync_from fuel _ _) as [[w2 b]|]; reflexivity.
Qed.

Lemma check_healthy fuel w d :
  PRIMARY_DB_UP w = true ->
  run "SELECT 1" [] (bound_store w) = Returned d ->
  check_primary_db fuel w = Some (set_flag true w, None).
Proof.
  intros F R. unfold check_primary_db, session_execute, before_cursor_execute.
  rewrite R, F. cbn [negb]. rewrite F. reflexivity.
Qed.

Lemma recovery_entry_frame w :
  PRIMARY_DB_UP (recovery_entry w) = PRIMARY_DB_UP w /\
  engine_uri (recovery_entry w) = engine_uri w /\
  stores (recovery_entry w) = stores w /\
  exists t, sql_log (recovery_entry w) = sql_log w ++ t.
Proof.
  unfold recovery_entry, before_cursor_execute.
  destruct (PRIMARY_DB_UP w) eqn:F; cbn; rewrite ?F; repeat split;
    eexists; rewrite ?append_assoc; reflexivity.
Qed.

(** C3, as the code has it: a successful probe while the flag is down
    calls the replay and then sets [PRIMARY_DB_UP] to [True] whether the
    replay completed or not. *)
Theorem recovery_sets_flag_regardless fuel w d w2 (completed : bool) :
  PRIMARY_DB_UP w = false ->
  run "SELECT 1" [] (bound_store w) = Returned d ->
  sync_from fuel (sync_start (recovery_entry w)) (recovery_entry w)
    = Some (w2, completed) ->
  check_primary_db fuel w = Some (set_flag true w2, None) /\
  PRIMARY_DB_UP (set_flag true w2) = true.
Proof.
  intros F R S. split; [|reflexivity].
  rewrite (check_recovering fuel w d F R), S. reflexivity.
Qed.

(** ** Statements of the application *)

Lemma execute_flag st ps w :
  PRIMARY_DB_UP (fst (execute st ps w)) = PRIMARY_DB_UP w.
Proof.
  unfold execute. pose proof (session_execute_flag st ps (bound_store w) w) as F.
  destruct (session_execute st ps (bound_store w) w) as [w1 [d|c e]]; exact F.
Qed.

Lemma execute_uri st ps w :
  engine_uri (fst (execute st ps w)) = engine_uri w.
Proof.
  unfold execute. pose proof (session_execute_uri st ps (bound_store w) w) as F.
  destruct (session_execute st ps (bound_store w) w) as [w1 [d|c e]]; exact F.
Qed.

Lemma execute_log st ps w :
  sql_log (fst (execute st ps w)) =
  sql_log w ++
    (if negb (PRIMARY_DB_UP w) && at_cursor_of (run st ps (bound_store w))
     then format_record st else "").
Proof.
  unfold execute. pose proof (session_execute_log st ps (bound_store w) w) as F.
  destruct (session_execute st ps (bound_store w) w) as [w1 [d|c e]]; exact F.
Qed.

Lemma execute_outcome st ps w :
  snd (execute st ps w) = run st ps (bound_store w).
Proof.
  unfold execute.
  pose proof (session_execute_outcome st ps (bound_store w) w) as F.
  destruct (session_execute st ps (bound_store w) w) as [w1 [d|c e]]; exact F.
Qed.

Lemma execute_other_stores st ps w u :
  u <> engine_uri w -> stores (fst (execute st ps w)) u = stores w u.
Proof.
  intros N. unfold execute.
  pose proof (session_execute_stores st ps (bound_store w) w) as F.
  pose proof (session_execute_uri st ps (bound_store w) w) as U.
  destruct (session_execute st ps (bound_store w) w) as [w1 [d|c e]];
    simpl in *; [|now rewrite F].
  rewrite U. apply String.eqb_neq in N. now rewrite N, F.
Qed.

(** C2, as the code has it: while [PRIMARY_DB_UP] is [False], every
    statement that reaches the cursor is appended to sql.log by the
    listener, a read as well as a mutation and whether or not its execution
    then succeeds; a statement that does not reach the cursor is not; the
    records are in the order of execution. *)
Theorem fallback_statements_logged l : forall w,
  PRIMARY_DB_UP w = false ->
  sql_log (execute_all l w) = sql_log w ++ fallback_records l w.
Proof.
  induction l as [|[st ps] t IH]; intros w F.
  - simpl. now rewrite append_empty_r.
  - unfold execute_all in *. cbn [fold_left fallback_records fst snd].
    rewrite IH by (now rewrite execute_flag).
    rewrite execute_log, F. cbn [negb andb]. now rewrite append_assoc.
Qed.

Lemma check_uri fuel w w' r :
  check_primary_db fuel w = Some (w', r) -> engine_uri w' = engine_uri w.
Proof.
  unfold check_primary_db.
  pose proof (session_execute_uri "SELECT 1" [] (bound_store w) w) as U.
  destruct (session_execute "SELECT 1" [] (bound_store w) w)
    as [w1 [d|c [m|m]]]; simpl in U.
  - destruct (negb (PRIMARY_DB_UP w1)).
    + unfold sync_data_from_fallback_to_primary.
      destruct (sync_from fuel _ _) as [[w2 b]|] eqn:S; [|discriminate].
      intros H; inversion H; subst. apply sync_from_frame in S as [_ U2].
      simpl in *. congruence.
    + intros H; inversion H; subst. exact U.
  - intros H; inversion H; subst. destruct (PRIMARY_DB_UP w1); exact U.
  - intros H; inversion H; subst. exact U.
Qed.

(** C9: in every state the process can reach, the configured URI is the
    one [create_app] chose at import with [PRIMARY_DB_UP = True]; the
    branch of the fallback URI was not taken and nothing changes the
    choice afterwards. *)
Theorem engine_uri_fixed url log0 st0 w :
  reachable url log0 st0 w -> engine_uri w = create_app_uri true url.
Proof.
  induction 1 as [| fuel w w' r _ IH C | st ps w _ IH | st w _ IH
                  | l msg w _ IH].
  - reflexivity.
  - now rewrite (check_uri _ _ _ _ C).
  - now rewrite execute_uri.
  - exact IH.
  - exact IH.
Qed.

(** ** The log record of a statement, read back *)

Lemma rstrip_line_end (x : string) : rstrip (x ++ NL) = rstrip x.
Proof.
  induction x as [|c x IH]; [reflexivity|].
  cbn [append rstrip]. now rewrite IH.
Qed.

Lemma strip_line_end (x : string) : strip (x ++ NL) = strip x.
Proof.
  unfold strip. induction x as [|c x IH]; [reflexivity|].
  cbn [append lstrip]. destruct (is_space c); [exact IH|].
  apply (rstrip_line_end (String c x)).
Qed.

Lemma format_record_line (st : string) :
  format_record st = (asctime ++ " - " ++ st) ++ NL ++ "".
Proof.
  unfold format_record. now rewrite !append_assoc, append_empty_r.
Qed.

Lemma readline_record (st : string) :
  lacks newline asctime = true -> lacks newline st = true ->
  readline (format_record st) = Some (format_record st, "").
Proof.
  intros A S.
  assert (E : take_line (format_record st) = (format_record st, "")).
  { rewrite format_record_line at 1. rewrite take_line_one.
    - now rewrite format_record_line, append_empty_r.
    - rewrite !lacks_append, A, S. reflexivity. }
  unfold readline. rewrite E.
  unfold format_record. destruct asctime; reflexivity.
Qed.

(** ** Repeated probes *)

Lemma edges_fall_tail n :
  edges true false (repeat false (S n) ++ [true])%list = 0.
Proof. induction n as [|n IH]; [reflexivity | exact IH]. Qed.

Lemma edges_rise_tail n :
  edges false true (repeat false (S n) ++ [true])%list = 1.
Proof. induction n as [|n IH]; [reflexivity | exact IH]. Qed.

Lemma check_failing_down fuel w c m :
  PRIMARY_DB_UP w = false ->
  run "SELECT 1" [] (bound_store w) = Raised c (SQLAlchemyError m) ->
  check_primary_db fuel w =
  Some (set_flag false (if c then logging_info "SELECT 1" w else w), None).
Proof.
  intros F R. unfold check_primary_db, session_execute, before_cursor_execute.
  rewrite R, F. destruct c; cbn; rewrite ?F; reflexivity.
Qed.

Lemma check_failing_up fuel w c m :
  PRIMARY_DB_UP w = true ->
  run "SELECT 1" [] (bound_store w) = Raised c (SQLAlchemyError m) ->
  check_primary_db fuel w =
  Some (set_flag false (logging_error ("Primary database is down: " ++ m) w),
        None).
Proof.
  intros F R. unfold check_primary_db, session_execute, before_cursor_execute.
  rewrite R, F. destruct c; cbn; rewrite ?F; reflexivity.
Qed.

(** Failed probes while the flag is already down: nothing is logged by the
    job; the listener records the probe itself when it reached the cursor. *)
Lemma failing_while_down fuel c m n : forall w,
  PRIMARY_DB_UP w = false ->
  run "SELECT 1" [] (bound_store w) = Raised c (SQLAlchemyError m) ->
  exists wn,
    monitor fuel n w = Some wn /\
    PRIMARY_DB_UP wn = false /\
    stores wn = stores w /\
    engine_uri wn = engine_uri w /\
    emitted wn =
      (emitted w ++ repeat (mkRecord INFO "SELECT 1") (if c then n else 0))%list /\
    monitor_flags fuel n w = repeat false n.
Proof.
  induction n as [|n IH]; intros w F R.
  - exists w. repeat split; auto. destruct c; simpl; now rewrite app_nil_r.
  - cbn [monitor monitor_flags]. rewrite (check_failing_down fuel w c m F R).
    set (w1 := set_flag false (if c then logging_info "SELECT 1" w else w)).
    assert (F1 : PRIMARY_DB_UP w1 = false) by reflexivity.
    assert (S1 : stores w1 = stores w) by (unfold w1; now destruct c).
    assert (U1 : engine_uri w1 = engine_uri w) by (unfold w1; now destruct c).
    assert (R1 : run "SELECT 1" [] (bound_store w1) = Raised c (SQLAlchemyError m))
      by (unfold bound_store; now rewrite S1, U1).
    destruct (IH w1 F1 R1) as [wn [M [Fn [Sn [Un [En Hn]]]]]].
    exists wn. rewrite M, Hn, F1. repeat split; try congruence.
    rewrite En. unfold w1. destruct c; cbn.
    + now rewrite <- app_assoc.
    + reflexivity.
Qed.


(** ** The exception handler, and schedules *)

Lemma sync_from_handling fuel e w w' b :
  sync_from fuel (Handling e) w = Some (w', b) -> b = false.
Proof.
  destruct fuel as [|[|k]]; simpl; intros H; inversion H; reflexivity.
Qed.


(** ** Does the replay return *)

Lemma sync_from_le fuel fuel' pc w r :
  fuel <= fuel' -> sync_from fuel pc w = Some r -> sync_from fuel' pc w = Some r.
Proof.
  induction 1 as [|m _ IH]; intros H; [exact H|].
  apply sync_from_more. exact (IH H).
Qed.

Lemma format_record_not_empty (msg : string) : format_record msg <> "".
Proof.
  unfold format_record. intros E.
  apply append_eq_empty in E as [_ E]. discriminate.
Qed.

(** With the flag up nothing is appended while the file is read: the loop
    ends after as many steps as there are lines left. *)
Lemma sync_from_up_returns n : forall pos session w,
  PRIMARY_DB_UP w = true ->
  String.length (string_drop pos (sql_log w)) <= n ->
  exists w' b, sync_from (4 + n) (Reading pos session) w = Some (w', b).
Proof.
  induction n as [|n IH]; intros pos s w F L.
  - destruct (string_drop pos (sql_log w)) as [|c u] eqn:E;
      [|simpl in L; lia].
    cbn [Nat.add sync_from sync_step]. rewrite E. cbn.
    destruct (commit_raises s); cbn; eauto.
  - cbn [Nat.add sync_from sync_step].
    destruct (string_drop pos (sql_log w)) as [|c u] eqn:E.
    + cbn. destruct (commit_raises s); cbn; eauto.
    + cbn [readline]. destruct (take_line (String c u)) as [line rest] eqn:T.
      pose proof (session_execute_up (strip line) [] s w F) as W.
      destruct (session_execute (strip line) [] s w) as [w1 [d|k e]];
        simpl in W; subst w1.
      * apply (IH _ _ _ F).
        rewrite <- drop_drop, E, <- (take_line_rest _ _ _ T).
        pose proof (take_line_progress _ _ _ _ T) as P.
        pose proof (f_equal String.length (take_line_split _ _ _ T)) as Q.
        rewrite length_append in Q. simpl in L, Q |- *. lia.
      * cbn. eauto.
Qed.

(** With the flag down, on a store that accepts every line, every line read
    makes the listener append another: the loop never reaches the end of
    the file. *)
Lemma sync_from_feeds_itself
    (accepts : forall st ps d, exists d', run st ps d = Returned d') fuel :
  forall pos session w,
    PRIMARY_DB_UP w = false ->
    string_drop pos (sql_log w) <> "" ->
    sync_from fuel (Reading pos session) w = None.
Proof.
  induction fuel as [|k IH]; intros pos s w F N; [reflexivity|].
  cbn [sync_from sync_step].
  destruct (string_drop pos (sql_log w)) as [|c u] eqn:E; [contradiction|].
  cbn [readline]. destruct (take_line (String c u)) as [line rest] eqn:T.
  destruct (accepts (strip line) [] s) as [d R].
  rewrite (session_execute_down_returned _ _ _ _ _ F R).
  apply IH; [exact F|]. cbn [sql_log logging_info logging_emit].
  assert (Le : pos + String.length line <= String.length (sql_log w)).
  { pose proof (f_equal String.length (take_line_split _ _ _ T)) as Q.
    pose proof (f_equal String.length E) as Q2.
    rewrite length_append in Q. rewrite length_drop in Q2. simpl in Q, Q2. lia. }
  rewrite (drop_append _ _ _ Le). intros Z.
  apply append_eq_empty in Z as [_ Z]. exact (format_record_not_empty _ Z).
Qed.


(** ** Lines and white space *)

Lemma lacks_lstrip c s : lacks c s = true -> lacks c (lstrip s) = true.
Proof.
  induction s as [|d s IH]; simpl; intros H; [reflexivity|].
  destruct (is_space d); [|exact H].
  apply andb_prop in H as [_ H]. now apply IH.
Qed.

Lemma lacks_rstrip c s : lacks c s = true -> lacks c (rstrip s) = true.
Proof.
  induction s as [|d s IH]; simpl; intros H; [reflexivity|].
  apply andb_prop in H as [Hd H]. specialize (IH H).
  destruct (rstrip s) as [|e r].
  - destruct (is_space d); simpl; [reflexivity | now rewrite Hd].
  - simpl in *. now rewrite Hd, IH.
Qed.

Lemma lacks_strip c s : lacks c s = true -> lacks c (strip s) = true.
Proof. intros H. unfold strip. now apply lacks_rstrip, lacks_lstrip. Qed.

(** A line is a text without a line end, followed by one unless the file
    ends there. *)
Lemma take_line_shape s : forall line r,
  take_line s = (line, r) ->
  exists a, lacks newline a = true /\
            (line = a ++ NL \/ (line = a /\ r = "")).
Proof.
  induction s as [|c s IH]; simpl; intros line r H.
  - inversion H; subst. exists "". auto.
  - destruct (Ascii.eqb c newline) eqn:E.
    + inversion H; subst. exists "". split; [reflexivity|]. left.
      apply Ascii.eqb_eq in E. now subst c.
    + destruct (take_line s) as [l1 r1]. inversion H; subst.
      destruct (IH _ _ eq_refl) as [a [La [Ha | [Ha Hr]]]]; subst.
      * exists (String c a). simpl. rewrite E, La. auto.
      * exists (String c a). simpl. rewrite E, La. auto.
Qed.

Lemma strip_of_line s line r :
  take_line s = (line, r) -> lacks newline (strip line) = true.
Proof.
  intros H. destruct (take_line_shape _ _ _ H) as [a [La [E | [E _]]]]; subst.
  - rewrite strip_line_end. now apply lacks_strip.
  - now apply lacks_strip.
Qed.

Lemma take_line_whole u : lacks newline u = true -> take_line u = (u, "").
Proof.
  induction u as [|c u IH]; simpl; intros H; [reflexivity|].
  apply andb_prop in H as [Hc Hu].
  destruct (Ascii.eqb c newline); [discriminate|]. now rewrite (IH Hu).
Qed.

Lemma take_line_inside u R :
  lacks newline u = false ->
  take_line (u ++ R) = (fst (take_line u), snd (take_line u) ++ R).
Proof.
  induction u as [|c u IH]; cbn [append take_line lacks]; intros H;
    [discriminate|].
  destruct (Ascii.eqb c newline); [reflexivity|].
  simpl in H. rewrite (IH H). now destruct (take_line u).
Qed.

Lemma take_line_length s line r :
  take_line s = (line, r) ->
  String.length s = String.length line + String.length r.
Proof.
  intros H. now rewrite (take_line_split _ _ _ H), length_append.
Qed.

Lemma records_app l1 l2 : records (l1 ++ l2) = records l1 ++ records l2.
Proof.
  induction l1 as [|x l1 IH]; simpl; [reflexivity|].
  now rewrite IH, append_assoc.
Qed.

(** Reading where a record starts gives that record, also when what is left
    of an unfinished line precedes it. *)
Lemma take_line_merged u x rest :
  lacks newline asctime = true -> lacks newline u = true ->
  lacks newline x = true ->
  take_line (u ++ format_record x ++ rest) = (u ++ format_record x, rest).
Proof.
  intros A U X.
  replace (u ++ format_record x ++ rest)
    with ((u ++ asctime ++ " - " ++ x) ++ NL ++ rest)
    by (unfold format_record; now rewrite !append_assoc).
  rewrite take_line_one.
  - unfold format_record. now rewrite !append_assoc.
  - rewrite !lacks_append, U, A, X. reflexivity.
Qed.

(** ** The replay on a store that rejects the records of the log *)

Lemma readline_not_empty s : s <> "" -> readline s = Some (take_line s).
Proof. destruct s; [contradiction | reflexivity]. Qed.

Lemma records_one x : records [x] = format_record x.
Proof. simpl. apply append_empty_r. Qed.

Lemma sync_from_raised fuel pos session w line rest c e :
  readline (string_drop pos (sql_log w)) = Some (line, rest) ->
  run (strip line) [] session = Raised c e ->
  exists w', sync_from (S (S fuel)) (Reading pos session) w = Some (w', false).
Proof.
  intros L R. cbn [sync_from sync_step]. rewrite L.
  unfold session_execute. rewrite R. destruct c, fuel; eexists; reflexivity.
Qed.

(** The reader stands where a record starts: the record is rejected, or the
    file ends there. *)
Lemma replay_at_record (reject : rejects_records)
    (A : lacks newline asctime = true) init l1 l2 session w :
  PRIMARY_DB_UP w = false ->
  sql_log w = init ++ records (l1 ++ l2) ->
  Forall (fun x => lacks newline x = true) l2 ->
  exists w' b,
    sync_from 4
      (Reading (String.length init + String.length (records l1)) session) w
      = Some (w', b) /\
    (l2 <> [] -> b = false).
Proof.
  intros F L N.
  assert (U : string_drop (String.length init + String.length (records l1))
                (sql_log w) = records l2).
  { rewrite L, records_app, <- append_assoc, <- length_append.
    apply drop_length_append. }
  destruct l2 as [|x t].
  - cbn [sync_from sync_step]. rewrite U. cbn.
    destruct (commit_raises session); cbn;
      (eexists _, _; split; [reflexivity|]; intros Z; now contradiction Z).
  - inversion N as [|? ? X _]; subst.
    destruct (reject x session X) as [c [e R]].
    destruct (sync_from_raised 2
                (String.length init + String.length (records l1)) session w
                (format_record x) (records t) c e) as [w' S'].
    + rewrite U. cbn [records]. rewrite readline_not_empty.
      * f_equal. exact (take_line_merged "" x (records t) A eq_refl X).
      * intros Z. apply append_eq_empty in Z as [Z _].
        exact (format_record_not_empty _ Z).
    + exact R.
    + exists w', false. split; [exact S' | reflexivity].
Qed.

Lemma replay_returns_rejecting (reject : rejects_records)
    (A : lacks newline asctime = true) m :
  forall pos init l session w,
    PRIMARY_DB_UP w = false ->
    sql_log w = init ++ records l ->
    Forall (fun x => lacks newline x = true) l ->
    pos <= String.length init ->
    String.length init <= pos + m ->
    exists w' b,
      sync_from (5 + m) (Reading pos session) w = Some (w', b) /\
      (l <> [] -> b = false).
Proof.
  assert (B : forall k init l session w,
             PRIMARY_DB_UP w = false ->
             sql_log w = init ++ records l ->
             Forall (fun x => lacks newline x = true) l ->
             exists w' b,
               sync_from (5 + k) (Reading (String.length init) session) w
                 = Some (w', b) /\
               (l <> [] -> b = false)).
  { intros k init l s w F L N.
    destruct (replay_at_record reject A init [] l s w F L N) as [w' [b [S' Q]]].
    exists w', b. split; [|exact Q].
    apply (sync_from_le 4); [lia|].
    simpl in S'. now rewrite Nat.add_0_r in S'. }
  induction m as [|m IH]; intros pos init l s w F L N P1 P2.
  - replace pos with (String.length init) by lia. now apply B.
  - destruct (Nat.eq_dec pos (String.length init)) as [E|E];
      [subst pos; now apply B|].
    assert (U : string_drop pos (sql_log w) = string_drop pos init ++ records l)
      by (rewrite L; now apply drop_append).
    pose proof (length_drop pos init) as Lu.
    destruct (string_drop pos init) as [|c u] eqn:Eu; [simpl in Lu; lia|].
    destruct (take_line (String c u ++ records l)) as [line rest] eqn:T.
    assert (RL : readline (string_drop pos (sql_log w)) = Some (line, rest))
      by (rewrite U, readline_not_empty; [now rewrite T | discriminate]).
    pose proof (strip_of_line _ _ _ T) as NF.
    pose proof (take_line_progress c (u ++ records l) line rest T) as P.
    destruct (run (strip line) [] s) as [d|k e] eqn:R.
    + (* the line is accepted: its record is appended *)
      set (w1 := logging_info (strip line) w).
      assert (F1 : PRIMARY_DB_UP w1 = false) by exact F.
      assert (L1 : sql_log w1 = init ++ records (l ++ [strip line])).
      { unfold w1. cbn. now rewrite L, records_app, records_one, append_assoc. }
      assert (N1 : Forall (fun x => lacks newline x = true) (l ++ [strip line]))
        by (apply Forall_app; split; [exact N | now constructor]).
      assert (NE : (l ++ [strip line])%list <> []) by (now destruct l).
      assert (Step : forall r,
                sync_from (5 + m) (Reading (pos + String.length line) d) w1
                  = Some r ->
                sync_from (5 + S m) (Reading pos s) w = Some r).
      { intros r H. cbn [Nat.add sync_from sync_step]. rewrite RL.
        rewrite (session_execute_down_returned _ _ _ _ _ F R). exact H. }
      assert (Done : (exists w' b,
                sync_from (5 + m) (Reading (pos + String.length line) d) w1
                  = Some (w', b) /\ ((l ++ [strip line])%list <> [] -> b = false)) ->
              exists w' b,
                sync_from (5 + S m) (Reading pos s) w = Some (w', b) /\
                (l <> [] -> b = false)).
      { intros [w' [b [H Q]]]. exists w', b. split; [now apply Step|].
        intros _. now apply Q. }
      apply Done.
      destruct (lacks newline (String c u)) eqn:NLu.
      * destruct l as [|x t].
        -- (* the unfinished last line of the file *)
           simpl records in T. rewrite append_empty_r in T.
           rewrite (take_line_whole _ NLu) in T. injection T as El Er.
           apply (IH _ init _ d w1 F1 L1 N1); rewrite <- El; simpl in *; lia.
        -- (* the unfinished line runs into the first record *)
           inversion N as [|? ? X Nt]; subst.
           cbn [records] in T.
           rewrite (take_line_merged _ x (records t) A NLu X) in T.
           injection T as El Er.
           assert (N2 : Forall (fun x => lacks newline x = true)
                          (t ++ [strip line]))
             by (apply Forall_app; split; [exact Nt | now constructor]).
           assert (L2 : sql_log w1 = init ++ records ([x] ++ (t ++ [strip line])))
             by exact L1.
           destruct (replay_at_record reject A init [x] (t ++ [strip line])%list
                       d w1 F1 L2 N2) as [w' [b [S' Q]]].
           exists w', b. split; [|intros _; apply Q; now destruct t].
           apply (sync_from_le 4); [lia|].
           rewrite records_one in S'.
           replace (pos + String.length line)
             with (String.length init + String.length (format_record x));
             [exact S'|].
           rewrite <- El. cbn [append String.length]. rewrite length_append.
           cbn [String.length] in Lu. lia.
      * (* the line ends inside what the file held *)
        rewrite (take_line_inside _ (records l) NLu) in T.
        destruct (take_line (String c u)) as [l0 r0] eqn:T0.
        simpl in T. injection T as El Er.
        pose proof (take_line_length _ _ _ T0) as Q0.
        apply (IH _ init _ d w1 F1 L1 N1); subst line; simpl in *; lia.
    + (* the line is rejected *)
      destruct (sync_from_raised (4 + m) pos s w line rest k e RL R) as [w' S'].
      exists w', false. split; [exact S' | reflexivity].
Qed.

Lemma strip_head c s :
  is_space c = false -> exists r, strip (String c s) = String c r.
Proof.
  intros H. unfold strip. cbn [lstrip]. rewrite H. cbn [rstrip].
  destruct (rstrip s); [rewrite H|]; eauto.
Qed.

Lemma recovery_entry_records w :
  PRIMARY_DB_UP w = false ->
  sql_log (recovery_entry w) =
  sql_log w ++
    records
      ["SELECT 1";
       "Primary database is back online. Starting data synchronization..."].
Proof.
  intros F. unfold recovery_entry, before_cursor_execute. rewrite F.
  cbn. now rewrite append_empty_r, !append_assoc.
Qed.

(** On a store that rejects the records of the log, the replay that a
    recovery starts returns, and it has not completed: at the latest it fails
    on the record of the probe. *)
Lemma recovery_replay_fails (reject : rejects_records)
    (A : lacks newline asctime = true) w :
  PRIMARY_DB_UP w = false ->
  exists fuel w2,
    forall fuel', fuel <= fuel' ->
      sync_from fuel' (sync_start (recovery_entry w)) (recovery_entry w)
        = Some (w2, false).
Proof.
  intros F.
  destruct (replay_returns_rejecting reject A (String.length (sql_log w)) 0
              (sql_log w)
              ["SELECT 1";
               "Primary database is back online. Starting data synchronization..."]
              (bound_store (recovery_entry w)) (recovery_entry w))
    as [w2 [b [S' Q]]].
  - now rewrite (proj1 (recovery_entry_frame w)).
  - now apply recovery_entry_records.
  - repeat constructor.
  - lia.
  - lia.
  - rewrite Q in S' by discriminate.
    exists (5 + String.length (sql_log w)), w2. intros fuel' Le.
    exact (sync_from_le _ _ _ _ _ Le S').
Qed.

(** On such a store every run of the job returns. *)
Lemma check_returns_rejecting (reject : rejects_records)
    (A : lacks newline asctime = true) w :
  exists fuel r,
    forall fuel', fuel <= fuel' -> check_primary_db fuel' w = Some r.
Proof.
  destruct (run "SELECT 1" [] (bound_store w)) as [d|c [m|m]] eqn:R.
  - destruct (PRIMARY_DB_UP w) eqn:F.
    + exists 0. eexists. intros fuel' _. now apply (check_healthy fuel' w d).
    + destruct (recovery_replay_fails reject A w F) as [fuel [w2 H]].
      exists fuel. eexists. intros fuel' Le.
      rewrite (check_recovering fuel' w d F R), (H fuel' Le). reflexivity.
  - destruct (PRIMARY_DB_UP w) eqn:F; exists 0; eexists; intros fuel' _.
    + now apply (check_failing_up fuel' w c m).
    + now apply (check_failing_down fuel' w c m).
  - destruct c; exists 0; eexists; intros fuel' _;
      unfold check_primary_db, session_execute; rewrite R; reflexivity.
Qed.

(** * More of app.py *)

(** ** The URI of create_app *)

Lemma replace_once_prefix (old new s : string) :
  String.prefix old s = true ->
  replace_once old new s = new ++ string_drop (String.length old) s.
Proof. intros H. destruct s; cbn [replace_once]; now rewrite H. Qed.

(** The URI written with [startswith] and [replace] is the one the state at
    start-up is given. *)
Lemma database_uri_create_app flag url :
  SQLALCHEMY_DATABASE_URI flag url = create_app_uri flag url.
Proof.
  unfold SQLALCHEMY_DATABASE_URI, create_app_uri, startswith, os_environ_get.
  destruct flag; [|reflexivity].
  destruct (String.prefix "postgres://" _) eqn:P; [|reflexivity].
  now rewrite (replace_once_prefix _ _ _ P).
Qed.

Lemma database_uri_scheme flag url :
  startswith (SQLALCHEMY_DATABASE_URI flag url) "postgres://" = false.
Proof.
  unfold SQLALCHEMY_DATABASE_URI. destruct flag; [|reflexivity].
  cbv zeta.
  destruct (startswith (os_environ_get url "sqlite:///blushy.db") "postgres://")
    eqn:P; [|exact P].
  unfold startswith in P. now rewrite (replace_once_prefix _ _ _ P).
Qed.

(** X1: a [DATABASE_URL] with the scheme [postgres://] is configured with
    the scheme [postgresql://] and the rest of the URL as it is, later
    occurrences of [postgres://] in it included; this is the URI the engine
    is bound to at start-up. *)
Theorem postgres_scheme_rewritten rest log0 stores0 :
  SQLALCHEMY_DATABASE_URI true (Some ("postgres://" ++ rest))
    = "postgresql://" ++ rest /\
  engine_uri (startup (Some ("postgres://" ++ rest)) log0 stores0)
    = "postgresql://" ++ rest.
Proof.
  assert (E : SQLALCHEMY_DATABASE_URI true (Some ("postgres://" ++ rest))
              = "postgresql://" ++ rest).
  { unfold SQLALCHEMY_DATABASE_URI, os_environ_get. cbv zeta.
    assert (P : String.prefix "postgres://" ("postgres://" ++ rest) = true)
      by (vm_compute; destruct rest; reflexivity).
    unfold startswith. rewrite P. now rewrite (replace_once_prefix _ _ _ P). }
  split; [exact E|].
  unfold startup. cbn [engine_uri]. now rewrite <- database_uri_create_app.
Qed.

(** X2: whatever the flag and the environment, the configured URI does not
    start with [postgres://]; given back as [DATABASE_URL] it is configured
    unchanged. *)
Theorem database_uri_normal flag url :
  startswith (SQLALCHEMY_DATABASE_URI flag url) "postgres://" = false /\
  SQLALCHEMY_DATABASE_URI true (Some (SQLALCHEMY_DATABASE_URI flag url))
    = SQLALCHEMY_DATABASE_URI flag url.
Proof.
  split; [apply database_uri_scheme|].
  pose proof (database_uri_scheme flag url) as P.
  set (u := SQLALCHEMY_DATABASE_URI flag url) in *.
  unfold SQLALCHEMY_DATABASE_URI at 1. unfold os_environ_get. cbv zeta.
  now rewrite P.
Qed.

(** ** The health endpoint *)

(** X3: after a run of the job that ends without an exception, the health
    endpoint reports [primary_db_up] as the probe of that run found it:
    [True] when ['SELECT 1'] returned, [False] when it raised; its [status]
    is ['ok'] in both cases. *)
Theorem health_reports_last_probe fuel w w' :
  check_primary_db fuel w = Some (w', None) ->
  health_check w' =
    [("status", JString "ok");
     ("primary_db_up",
      JBool match run "SELECT 1" [] (bound_store w) with
            | Returned _ => true
            | Raised _ _ => false
            end)].
Proof.
  unfold check_primary_db, session_execute, health_check.
  destruct (run "SELECT 1" [] (bound_store w)) as [d|c [m|m]].
  - destruct (negb _).
    + destruct (sync_data_from_fallback_to_primary _ _) as [[w2 v]|];
        [|discriminate].
      intros H. now inversion H.
    + intros H. now inversion H.
  - destruct c; intros H; now inversion H.
  - destruct c; discriminate.
Qed.

Lemma execute_all_flag l : forall w,
  PRIMARY_DB_UP (execute_all l w) = PRIMARY_DB_UP w.
Proof.
  induction l as [|[st ps] t IH]; intros w; [reflexivity|].
  unfold execute_all in *. cbn [fold_left fst snd].
  now rewrite IH, execute_flag.
Qed.

(** X4: the health endpoint reads the flag only, which statements of the
    application never assign: whatever happens to the stores and however
    the statements executed since end, the report is the one of before. *)
Theorem health_unchanged_by_statements l st w :
  health_check (execute_all l (set_stores st w)) = health_check w.
Proof. unfold health_check. now rewrite execute_all_flag. Qed.

(** ** The listener and the reader of sql.log *)

Lemma take_line_shorter (c : ascii) (s l r : string) :
  take_line (String c s) = (l, r) ->
  String.length r < String.length (String c s).
Proof.
  intros T. pose proof (take_line_progress _ _ _ _ T) as P.
  apply take_line_split in T. rewrite T, length_append. lia.
Qed.

Lemma lines_from_enough : forall f1 f2 s,
  String.length s <= f1 -> String.length s <= f2 ->
  lines_from f1 s = lines_from f2 s.
Proof.
  induction f1 as [|f1 IH]; intros f2 s L1 L2.
  - destruct s; [|simpl in L1; lia]. destruct f2; reflexivity.
  - destruct f2 as [|f2]; [destruct s; [reflexivity | simpl in L2; lia]|].
    destruct s as [|c s]; [reflexivity|].
    cbn [lines_from readline].
    destruct (take_line (String c s)) as [l r] eqn:T.
    pose proof (take_line_shorter _ _ _ _ T) as P.
    f_equal. apply IH; simpl in *; lia.
Qed.

Lemma file_lines_record (x rest : string) :
  lacks newline x = true ->
  file_lines (x ++ NL ++ rest) = (x ++ NL) :: file_lines rest.
Proof.
  intros L. unfold file_lines.
  destruct (String.length (x ++ NL ++ rest)) as [|n] eqn:E.
  - rewrite !length_append in E. simpl in E. lia.
  - cbn [lines_from]. unfold readline.
    destruct (x ++ NL ++ rest) as [|c s] eqn:X.
    + discriminate.
    + rewrite <- X, (take_line_one x rest L). f_equal.
      apply lines_from_enough; [|lia].
      rewrite <- X in E. rewrite !length_append in E. simpl in E. lia.
Qed.

(** X5: a statement written on two lines, logged while the flag is down,
    comes back from sql.log as two lines: the time stamp, [" - "] and the
    first line of the statement, and then its second line, each a statement
    of its own for the replay. *)
Theorem multiline_statement_split a b ps w :
  PRIMARY_DB_UP w = false ->
  one_line asctime = true ->
  one_line a = true ->
  one_line b = true ->
  at_cursor_of (run (a ++ NL ++ b) ps (bound_store w)) = true ->
  let w' := fst (execute (a ++ NL ++ b) ps w) in
  file_lines (string_drop (String.length (sql_log w)) (sql_log w')) =
    [asctime ++ " - " ++ a ++ NL; b ++ NL].
Proof.
  intros F A La Lb C w'. unfold w'.
  apply andb_prop in A as [A _], La as [La _], Lb as [Lb _].
  assert (B : file_lines (b ++ NL) = [b ++ NL]).
  { pose proof (file_lines_record b "" Lb) as H. cbn [append] in H.
    exact H. }
  rewrite <- B.
  rewrite execute_log, F, C. cbn [negb andb].
  rewrite drop_length_append. unfold format_record.
  replace (asctime ++ " - " ++ (a ++ NL ++ b) ++ NL)
    with ((asctime ++ " - " ++ a) ++ NL ++ (b ++ NL))
    by (now rewrite !append_assoc).
  rewrite file_lines_record.
  - now rewrite !append_assoc.
  - rewrite !lacks_append, A, La. reflexivity.
Qed.

Lemma execute_up st ps w :
  PRIMARY_DB_UP w = true ->
  sql_log (fst (execute st ps w)) = sql_log w /\
  emitted (fst (execute st ps w)) = emitted w.
Proof.
  intros F. unfold execute.
  pose proof (session_execute_up st ps (bound_store w) w F) as U.
  destruct (session_execute st ps (bound_store w) w) as [w1 [d|c e]];
    cbn [fst] in *; subst w1; split; reflexivity.
Qed.

(** ** The replay while the flag is down *)

(** Every line that returns is logged behind the reader, so the reader does
    not come to the end of the file. *)
Lemma replay_down_fails fuel : forall pos session w w' b,
  PRIMARY_DB_UP w = false ->
  pos < String.length (sql_log w) ->
  sync_from fuel (Reading pos session) w = Some (w', b) ->
  b = false.
Proof.
  induction fuel as [|fuel IH]; intros pos session w w' b F P H;
    [discriminate|].
  cbn [sync_from sync_step] in H.
  pose proof (length_drop pos (sql_log w)) as Ld.
  destruct (string_drop pos (sql_log w)) as [|c s] eqn:E;
    [simpl in Ld; lia|].
  cbn [readline] in H.
  destruct (take_line (String c s)) as [line rest] eqn:T.
  pose proof (take_line_split _ _ _ T) as Sp.
  assert (Ll : String.length line <= String.length (sql_log w) - pos).
  { rewrite <- Ld, Sp, length_append. lia. }
  unfold session_execute in H.
  destruct (run (strip line) [] session) as [d|c' e].
  - unfold before_cursor_execute in H. rewrite F in H. cbn [negb] in H.
    apply IH in H; [exact H | exact F |].
    cbn [logging_info logging_emit sql_log]. rewrite length_append.
    assert (0 < String.length (format_record (strip line))).
    { destruct (format_record (strip line)) eqn:X; [|simpl; lia].
      now apply format_record_not_empty in X. }
    lia.
  - destruct c'; now apply sync_from_handling in H.
Qed.

(** A replay that failed has logged its failure last. *)
Lemma sync_from_failed_record fuel : forall pc w w',
  pc <> Halted false ->
  sync_from fuel pc w = Some (w', false) ->
  exists pre e,
    emitted w' =
      (pre ++ [mkRecord ERROR ("Data synchronization failed: " ++ exn_str e)])%list.
Proof.
  induction fuel as [|fuel IH]; intros pc w w' N H.
  - destruct pc as [| | | | |[|]]; try discriminate. contradiction.
  - destruct pc as [pos session|session| | |e|[|]];
      try (cbn [sync_from sync_step] in H);
      try discriminate; try contradiction.
    + destruct (readline _) as [[line rest]|].
      * destruct (session_execute _ _ _ _) as [w1 [d|c e]];
          apply IH in H; try exact H; discriminate.
      * apply IH in H; [exact H | discriminate].
    + destruct (commit_raises session);
        (apply IH in H; [exact H | discriminate]).
    + apply IH in H; [exact H | discriminate].
    + apply IH in H; [exact H | discriminate].
    + destruct fuel; cbn [sync_from] in H; inversion H; subst w'.
      all: eexists (emitted w), e; reflexivity.
Qed.

(** The line of that record ends sql.log. *)
Lemma sync_from_failed_log fuel : forall pc w w',
  pc <> Halted false ->
  sync_from fuel pc w = Some (w', false) ->
  exists t e,
    sql_log w' =
      sql_log w ++ t
        ++ format_record ("Data synchronization failed: " ++ exn_str e).
Proof.
  induction fuel as [|fuel IH]; intros pc w w' N H.
  - destruct pc as [| | | | |[|]]; try discriminate. contradiction.
  - destruct pc as [pos session|session| | |e|[|]];
      try (cbn [sync_from sync_step] in H);
      try discriminate; try contradiction.
    + destruct (readline _) as [[line rest]|].
      * pose proof (session_execute_log (strip line) [] session w) as L1.
        destruct (session_execute _ _ _ _) as [w1 [d|c e]]; cbn [fst] in L1;
          (apply IH in H as [t [e' H]]; [|discriminate]);
          rewrite L1, append_assoc, <- (append_assoc _ t) in H; eauto.
      * apply IH in H; [exact H | discriminate].
    + destruct (commit_raises session);
        [apply IH in H; [exact H | discriminate]|].
      apply (sync_from_past_loop fuel Truncating) in H; [discriminate|reflexivity].
    + apply (sync_from_past_loop fuel Succeeding) in H; [discriminate|reflexivity].
    + apply (sync_from_past_loop fuel (Halted true)) in H;
        [discriminate|reflexivity].
    + destruct fuel; cbn [sync_from] in H; inversion H; subst w'.
      all: exists "", e; reflexivity.
Qed.

(** X7: called while [PRIMARY_DB_UP] is [False] on a sql.log that is not
    empty, the replay does not complete, whatever the store does: when it
    returns, it has failed, so the store holds what it held, nothing is
    removed from sql.log, and the last record logged is the failure. *)
Theorem replay_while_down_fails fuel w w' v :
  PRIMARY_DB_UP w = false ->
  sql_log w <> "" ->
  sync_data_from_fallback_to_primary fuel w = Some (w', v) ->
  PRIMARY_DB_UP w' = false /\
  stores w' = stores w /\
  (exists t, sql_log w' = sql_log w ++ t) /\
  exists pre e,
    emitted w' =
      (pre ++ [mkRecord ERROR ("Data synchronization failed: " ++ exn_str e)])%list.
Proof.
  intros F N H. unfold sync_data_from_fallback_to_primary in H.
  destruct (sync_from fuel (sync_start w) w) as [[w2 b]|] eqn:S; [|discriminate].
  inversion H; subst w2 v; clear H.
  assert (B : b = false).
  { apply (replay_down_fails fuel 0 (bound_store w) w w' b F); [|exact S].
    destruct (sql_log w); [contradiction | simpl; lia]. }
  subst b.
  destruct (sync_from_frame _ _ _ _ _ S) as [F' _].
  destruct (sync_from_failed _ _ _ _ S) as [St Lg].
  split; [now rewrite F'|]. split; [exact St|]. split; [exact Lg|].
  apply (sync_from_failed_record fuel (sync_start w) w w'); [discriminate | exact S].
Qed.

(** X8: a run of the job that finds the primary back (the flag is down and
    the probe returns) synchronises nothing, whatever the store does: the
    probe and the announcement are in sql.log before the replay starts, so
    the replay cannot complete.  When the run returns, no exception has left
    it, [PRIMARY_DB_UP] is [True], the stores hold what they held, sql.log
    has grown, and the last record logged is the failure of the replay. *)
Theorem recovery_synchronises_nothing fuel w d w' r :
  PRIMARY_DB_UP w = false ->
  run "SELECT 1" [] (bound_store w) = Returned d ->
  check_primary_db fuel w = Some (w', r) ->
  r = None /\
  PRIMARY_DB_UP w' = true /\
  stores w' = stores w /\
  (exists t, t <> "" /\ sql_log w' = sql_log w ++ t) /\
  exists pre e,
    emitted w' =
      (pre ++ [mkRecord ERROR ("Data synchronization failed: " ++ exn_str e)])%list.
Proof.
  intros F R H. rewrite (check_recovering fuel w d F R) in H.
  destruct (sync_from fuel _ _) as [[w2 b]|] eqn:S; [|discriminate].
  inversion H; subst w' r; clear H.
  pose proof (recovery_entry_records w F) as Lr.
  destruct (recovery_entry_frame w) as [Fr [_ [Sr _]]].
  assert (B : b = false).
  { apply (replay_down_fails fuel 0 _ _ w2 b) in S; [exact S | now rewrite Fr |].
    rewrite Lr, length_append. cbn [records]. rewrite !length_append.
    unfold format_record. rewrite !length_append. simpl. lia. }
  subst b.
  destruct (sync_from_failed _ _ _ _ S) as [St [t Lg]].
  split; [reflexivity|]. split; [reflexivity|].
  split; [cbn [set_flag stores]; now rewrite St, Sr|].
  split.
  - eexists. split; [|cbn [set_flag sql_log]; rewrite Lg, Lr, append_assoc;
                      reflexivity].
    cbn [records]. intros E. apply append_eq_empty in E as [E _].
    apply append_eq_empty in E as [E _].
    now apply format_record_not_empty in E.
  - cbn [set_flag emitted].
    apply (sync_from_failed_record fuel _ _ w2) in S; [exact S | discriminate].
Qed.

(** ** sql.log over the life of the process *)

Lemma logging_emit_inv pre l msg w :
  sql_log w = pre ++ records (map message (emitted w)) ->
  sql_log (logging_emit l msg w) =
    pre ++ records (map message (emitted (logging_emit l msg w))).
Proof.
  intros I. cbn [logging_emit sql_log emitted].
  rewrite I, map_app, records_app, append_assoc. cbn [map message].
  now rewrite records_one.
Qed.

Lemma session_execute_inv pre st ps view w :
  sql_log w = pre ++ records (map message (emitted w)) ->
  sql_log (fst (session_execute st ps view w)) =
    pre ++ records (map message (emitted (fst (session_execute st ps view w)))).
Proof.
  intros I. unfold session_execute, before_cursor_execute.
  destruct (run st ps view) as [d|[|] e]; cbn [fst];
    destruct (negb (PRIMARY_DB_UP w)); try exact I;
    now apply logging_emit_inv.
Qed.

Lemma sync_from_inv pre fuel : forall pc w w',
  sync_from fuel pc w = Some (w', false) ->
  sql_log w = pre ++ records (map message (emitted w)) ->
  sql_log w' = pre ++ records (map message (emitted w')).
Proof.
  induction fuel as [|fuel IH]; intros pc w w' H I.
  - destruct pc as [| | | | |[|]]; cbn [sync_from] in H; try discriminate.
    inversion H; subst. exact I.
  - destruct pc as [pos session|session| | |e|[|]];
      try (cbn [sync_from sync_step] in H).
    + destruct (readline _) as [[line rest]|].
      * pose proof (session_execute_inv pre (strip line) [] session w I) as J.
        destruct (session_execute _ _ _ _) as [w1 [d|c e]]; cbn [fst] in J;
          exact (IH _ _ _ H J).
      * exact (IH _ _ _ H I).
    + destruct (commit_raises session); [exact (IH _ _ _ H I)|].
      now apply (sync_from_past_loop fuel Truncating) in H.
    + now apply (sync_from_past_loop fuel Succeeding) in H.
    + now apply (sync_from_past_loop fuel (Halted true)) in H.
    + apply (IH _ _ _ H). now apply logging_emit_inv.
    + cbn [sync_from] in H. discriminate.
    + cbn [sync_from] in H. inversion H; subst. exact I.
Qed.

Lemma check_inv pre fuel w w' r :
  check_primary_db fuel w = Some (w', r) ->
  sql_log w = pre ++ records (map message (emitted w)) ->
  sql_log w' = pre ++ records (map message (emitted w')).
Proof.
  intros H I.
  destruct (run "SELECT 1" [] (bound_store w)) as [d|c [m|m]] eqn:R.
  - destruct (PRIMARY_DB_UP w) eqn:F.
    + rewrite (check_healthy fuel w d F R) in H. inversion H; subst. exact I.
    + rewrite (check_recovering fuel w d F R) in H.
      destruct (sync_from fuel _ _) as [[w2 b]|] eqn:S; [|discriminate].
      inversion H; subst w' r; clear H. cbn [set_flag sql_log emitted].
      assert (J : sql_log (recovery_entry w) =
                  pre ++ records (map message (emitted (recovery_entry w)))).
      { unfold recovery_entry, before_cursor_execute. rewrite F. cbn [negb].
        now do 2 apply logging_emit_inv. }
      assert (B : b = false).
      { apply (replay_down_fails fuel 0 _ _ w2 b) in S; [exact S | |].
        - now rewrite (proj1 (recovery_entry_frame w)).
        - rewrite (recovery_entry_records w F), length_append. cbn [records].
          unfold format_record. rewrite !length_append. simpl. lia. }
      subst b. exact (sync_from_inv pre fuel _ _ _ S J).
  - destruct (PRIMARY_DB_UP w) eqn:F.
    + rewrite (check_failing_up fuel w c m F R) in H. inversion H; subst.
      cbn [set_flag sql_log emitted]. now apply logging_emit_inv.
    + rewrite (check_failing_down fuel w c m F R) in H. inversion H; subst.
      cbn [set_flag sql_log emitted].
      destruct c; [now apply logging_emit_inv | exact I].
  - pose proof (session_execute_inv pre "SELECT 1" [] (bound_store w) w I) as J.
    unfold check_primary_db in H. unfold session_execute in H, J.
    rewrite R in H, J. destruct c; cbn [fst] in J; inversion H; subst; exact J.
Qed.

Lemma execute_inv pre st ps w :
  sql_log w = pre ++ records (map message (emitted w)) ->
  sql_log (fst (execute st ps w)) =
    pre ++ records (map message (emitted (fst (execute st ps w)))).
Proof.
  intros I. unfold execute.
  pose proof (session_execute_inv pre st ps (bound_store w) w I) as J.
  destruct (session_execute st ps (bound_store w) w) as [w1 [d|c e]];
    cbn [fst] in *; exact J.
Qed.

(** ** The error record of an outage *)

Lemma prefix_append (a b : string) : String.prefix a (a ++ b) = true.
Proof.
  induction a as [|c a IH]; [destruct b; reflexivity|].
  cbn. destruct (ascii_dec c c); [exact IH | contradiction].
Qed.

Lemma down_records_info msg w :
  filter is_down_record (emitted (logging_info msg w)) =
  filter is_down_record (emitted w).
Proof.
  cbn [logging_info logging_emit emitted]. rewrite filter_app.
  cbn. apply app_nil_r.
Qed.

Lemma down_records_session st ps view w :
  filter is_down_record (emitted (fst (session_execute st ps view w))) =
  filter is_down_record (emitted w).
Proof.
  unfold session_execute, before_cursor_execute.
  destruct (run st ps view) as [d|[|] e]; cbn [fst];
    destruct (negb (PRIMARY_DB_UP w)); try reflexivity;
    apply down_records_info.
Qed.

Lemma down_records_sync fuel : forall pc w w' b,
  sync_from fuel pc w = Some (w', b) ->
  filter is_down_record (emitted w') = filter is_down_record (emitted w).
Proof.
  induction fuel as [|fuel IH]; intros pc w w' b H.
  - destruct pc as [| | | | |c]; cbn [sync_from] in H; try discriminate.
    now inversion H.
  - destruct pc as [pos session|session| | |e|c];
      cbn [sync_from sync_step] in H.
    + destruct (readline _) as [[line rest]|].
      * pose proof (down_records_session (strip line) [] session w) as J.
        destruct (session_execute _ _ _ _) as [w1 [d|c e]]; cbn [fst] in J;
          rewrite <- J; exact (IH _ _ _ _ H).
      * exact (IH _ _ _ _ H).
    + destruct (commit_raises session); exact (IH _ _ _ _ H).
    + exact (IH _ _ _ _ H).
    + rewrite (IH _ _ _ _ H). apply down_records_info.
    + rewrite (IH _ _ _ _ H).
      cbn [logging_error logging_emit emitted]. rewrite filter_app.
      cbn. apply app_nil_r.
    + now inversion H.
Qed.

Lemma down_records_check fuel w w' r :
  check_primary_db fuel w = Some (w', r) ->
  length (filter is_down_record (emitted w')) =
  length (filter is_down_record (emitted w)) +
  (if Bool.eqb (PRIMARY_DB_UP w) true && Bool.eqb (PRIMARY_DB_UP w') false
   then 1 else 0).
Proof.
  intros H.
  destruct (run "SELECT 1" [] (bound_store w)) as [d|c [m|m]] eqn:R.
  - destruct (PRIMARY_DB_UP w) eqn:F.
    + rewrite (check_healthy fuel w d F R) in H. inversion H; subst.
      cbn. lia.
    + rewrite (check_recovering fuel w d F R) in H.
      destruct (sync_from fuel _ _) as [[w2 b]|] eqn:S; [|discriminate].
      inversion H; subst w' r; clear H. cbn [set_flag emitted andb Bool.eqb].
      rewrite (down_records_sync _ _ _ _ _ S).
      unfold recovery_entry, before_cursor_execute. rewrite F. cbn [negb].
      rewrite !down_records_info. lia.
  - destruct (PRIMARY_DB_UP w) eqn:F.
    + rewrite (check_failing_up fuel w c m F R) in H.
      injection H as Hw Hr. subst w' r.
      cbn [set_flag emitted PRIMARY_DB_UP logging_error logging_emit].
      rewrite filter_app, length_app.
      match goal with
      | |- context [filter is_down_record [?r]] =>
          assert (D : is_down_record r = true)
            by exact (prefix_append "Primary database is down: " m)
      end.
      cbn [filter]. rewrite D. reflexivity.
    + rewrite (check_failing_down fuel w c m F R) in H. inversion H; subst.
      cbn [set_flag emitted andb Bool.eqb].
      destruct c; [rewrite down_records_info|]; lia.
  - pose proof (down_records_session "SELECT 1" [] (bound_store w) w) as J.
    pose proof (session_execute_flag "SELECT 1" [] (bound_store w) w) as K.
    unfold check_primary_db in H. unfold session_execute in H, J, K.
    rewrite R in H, J, K.
    destruct c; cbn [fst] in J, K; injection H as Hw Hr; subst w' r;
      try rewrite J; try rewrite K;
      destruct (PRIMARY_DB_UP w); cbn; lia.
Qed.

Lemma down_records_execute st ps w :
  filter is_down_record (emitted (fst (execute st ps w))) =
  filter is_down_record (emitted w).
Proof.
  unfold execute.
  pose proof (down_records_session st ps (bound_store w) w) as J.
  destruct (session_execute st ps (bound_store w) w) as [w1 [d|c e]];
    cbn [fst] in *; exact J.
Qed.

Lemma last_cons {A} (a d : A) (l : list A) : last (a :: l) d = last l a.
Proof.
  revert a d. induction l as [|b l IH]; intros a d; [reflexivity|].
  change (last (a :: b :: l) d) with (last (b :: l) d).
  now rewrite !IH.
Qed.

(** X10: over any run of the process (runs of the job with whatever the
    probes find, statements of the application, changes of the stores), the
    number of records ["Primary database is down: ..."] logged is the number
    of times [PRIMARY_DB_UP] went from [True] to [False]: one record for
    each outage, none for the probes that fail while the flag is down. *)
Theorem one_down_record_per_outage l : forall w ws,
  run_events l w = Some ws ->
  length (filter is_down_record (emitted (last ws w))) =
  length (filter is_down_record (emitted w)) +
  edges true false (PRIMARY_DB_UP w :: map (fun x => PRIMARY_DB_UP x) ws).
Proof.
  induction l as [|e t IH]; intros w ws R.
  - inversion R; subst. cbn. lia.
  - cbn [run_events] in R.
    destruct (step_event e w) as [w1|] eqn:S1; [|discriminate].
    destruct (run_events t w1) as [ws1|] eqn:R1; [|discriminate].
    inversion R; subst ws; clear R.
    rewrite last_cons, (IH w1 ws1 R1).
    cbn [map].
    change (edges true false
              (PRIMARY_DB_UP w :: PRIMARY_DB_UP w1 ::
                 map (fun x => PRIMARY_DB_UP x) ws1))
      with ((if Bool.eqb (PRIMARY_DB_UP w) true
                && Bool.eqb (PRIMARY_DB_UP w1) false then 1 else 0)
            + edges true false
                (PRIMARY_DB_UP w1 :: map (fun x => PRIMARY_DB_UP x) ws1)).
    assert (K : length (filter is_down_record (emitted w1)) =
                length (filter is_down_record (emitted w)) +
                (if Bool.eqb (PRIMARY_DB_UP w) true
                    && Bool.eqb (PRIMARY_DB_UP w1) false then 1 else 0)).
    { destruct e as [fuel|st ps|st]; cbn [step_event] in S1.
      - destruct (check_primary_db fuel w) as [[w2 r]|] eqn:C; [|discriminate].
        inversion S1; subst w2. exact (down_records_check fuel w w1 r C).
      - inversion S1; subst w1.
        rewrite down_records_execute, execute_flag.
        destruct (PRIMARY_DB_UP w); cbn; lia.
      - inversion S1; subst w1. cbn [set_stores emitted PRIMARY_DB_UP].
        destruct (PRIMARY_DB_UP w); cbn; lia. }
    lia.
Qed.

(** ** The replay called while the flag is up *)

(** With the flag up the listener is silent, so the loop reads the lines the
    file had when it was opened. *)
Lemma sync_up_loop n : forall pos session w,
  PRIMARY_DB_UP w = true ->
  String.length (string_drop pos (sql_log w)) <= n ->
  sync_from (4 + n) (Reading pos session) w =
  Some match run_lines (lines_from n (string_drop pos (sql_log w))) session with
       | Returned d =>
           match commit_raises d with
           | None =>
               (logging_info "Data synchronization successful."
                  (truncate (commit d w)), true)
           | Some e =>
               (logging_error ("Data synchronization failed: " ++ exn_str e) w,
                false)
           end
       | Raised _ e =>
           (logging_error ("Data synchronization failed: " ++ exn_str e) w,
            false)
       end.
Proof.
  induction n as [|n IH]; intros pos session w F L.
  - destruct (string_drop pos (sql_log w)) as [|c s] eqn:E; [|simpl in L; lia].
    cbn [plus sync_from sync_step]. rewrite E.
    cbn [readline lines_from run_lines sync_from sync_step].
    destruct (commit_raises session); reflexivity.
  - destruct (string_drop pos (sql_log w)) as [|c s] eqn:E.
    + apply (sync_from_le 4); [lia|].
      cbn [sync_from sync_step]. rewrite E.
      cbn [readline lines_from run_lines sync_from sync_step].
      destruct (commit_raises session); reflexivity.
    + change (4 + S n) with (S (4 + n)).
      cbn [sync_from sync_step lines_from]. rewrite E. cbn [readline].
      destruct (take_line (String c s)) as [line rest] eqn:T.
      pose proof (take_line_shorter _ _ _ _ T) as Sh.
      pose proof (take_line_rest _ _ _ T) as Re.
      rewrite <- E, drop_drop in Re.
      pose proof (session_execute_up (strip line) [] session w F) as U.
      pose proof (session_execute_outcome (strip line) [] session w) as O.
      destruct (session_execute (strip line) [] session w) as [w1 o].
      cbn [fst snd] in U, O. subst w1 o. cbn [run_lines].
      destruct (run (strip line) [] session) as [d|c' e].
      * rewrite (IH (pos + String.length line) d w F); rewrite <- Re;
          [reflexivity | simpl in *; lia].
      * reflexivity.
Qed.

(** ** The job on a store that rejects the records of the log *)

(** X12: on a store that rejects lines in the record format of sql.log, any
    number of consecutive runs of the job return: a recovery among them ends
    with the failure of its replay, not in the loop that feeds on the
    file. *)
Theorem monitor_returns_rejecting (reject : rejects_records)
    (A : lacks newline asctime = true) n :
  forall w,
    exists fuel wn,
      forall fuel', fuel <= fuel' -> monitor fuel' n w = Some wn.
Proof.
  induction n as [|n IH]; intros w.
  - exists 0, w. reflexivity.
  - destruct (check_returns_rejecting reject A w) as [f1 [[w1 r] H1]].
    destruct (IH w1) as [f2 [wn H2]].
    exists (Nat.max f1 f2), wn. intros fuel' Le.
    cbn [monitor]. rewrite (H1 fuel') by lia. apply H2. lia.
Qed.

(** ** The replay of an empty file *)

(** * The job, the replay and the statements: what each leaves behind *)

Lemma check_flag_up w :
  PRIMARY_DB_UP w = true ->
  exists r,
    (forall fuel, check_primary_db fuel w = Some r) /\
    (forall d, run "SELECT 1" [] (bound_store w) = Returned d ->
               r = (set_flag true w, None)).
Proof.
  intros F.
  destruct (run "SELECT 1" [] (bound_store w)) as [d|c [m|m]] eqn:R.
  - exists (set_flag true w, None). split; [|reflexivity].
    intros fuel. exact (check_healthy fuel w d F R).
  - eexists. split; [|discriminate].
    intros fuel. exact (check_failing_up fuel w c m F R).
  - destruct c; eexists; (split; [|discriminate]); intros fuel;
      unfold check_primary_db, session_execute; rewrite R; reflexivity.
Qed.

Lemma sync_from_other_stores fuel : forall pc w w' b u,
  u <> engine_uri w ->
  sync_from fuel pc w = Some (w', b) ->
  stores w' u = stores w u.
Proof.
  induction fuel as [|fuel IH]; intros pc w w' b u N H.
  - destruct pc; cbn [sync_from] in H; try discriminate. now inversion H.
  - destruct pc as [pos session|session| | |e|c];
      cbn [sync_from sync_step] in H.
    + destruct (readline _) as [[line rest]|].
      * pose proof (session_execute_stores (strip line) [] session w) as S1.
        pose proof (session_execute_uri (strip line) [] session w) as U1.
        destruct (session_execute _ _ _ _) as [w1 [d|c e]]; cbn [fst] in S1, U1;
          rewrite <- S1; rewrite <- U1 in N; exact (IH _ _ _ _ _ N H).
      * exact (IH _ _ _ _ _ N H).
    + destruct (commit_raises session).
      * exact (IH _ _ _ _ _ N H).
      * rewrite (IH Truncating (commit session w) w' b u N H).
        cbn [commit stores].
        destruct (String.eqb_spec u (engine_uri w)); [contradiction|reflexivity].
    + exact (IH Succeeding (truncate w) w' b u N H).
    + exact (IH _ (logging_info "Data synchronization successful." w) w' b u N H).
    + exact (IH _ (logging_error ("Data synchronization failed: " ++ exn_str e) w)
               w' b u N H).
    + now inversion H.
Qed.

Lemma check_other_stores fuel w w' r u :
  u <> engine_uri w ->
  check_primary_db fuel w = Some (w', r) ->
  stores w' u = stores w u.
Proof.
  intros N H.
  destruct (run "SELECT 1" [] (bound_store w)) as [d|c [m|m]] eqn:R.
  - destruct (PRIMARY_DB_UP w) eqn:F.
    + rewrite (check_healthy fuel w d F R) in H. now inversion H.
    + rewrite (check_recovering fuel w d F R) in H.
      destruct (sync_from fuel _ _) as [[w2 b]|] eqn:S; [|discriminate].
      inversion H; subst w' r. cbn [set_flag stores].
      destruct (recovery_entry_frame w) as [_ [U [St _]]].
      rewrite <- U in N. rewrite (sync_from_other_stores _ _ _ _ _ _ N S).
      now rewrite St.
  - destruct (PRIMARY_DB_UP w) eqn:F.
    + rewrite (check_failing_up fuel w c m F R) in H. now inversion H.
    + rewrite (check_failing_down fuel w c m F R) in H. inversion H.
      now destruct c.
  - pose proof (session_execute_stores "SELECT 1" [] (bound_store w) w) as S1.
    unfold check_primary_db in H. unfold session_execute in H, S1.
    rewrite R in H, S1. destruct c; cbn [fst] in S1; inversion H; subst;
      first [reflexivity | now rewrite S1].
Qed.

(** C1, as the code has it: when the replay started by a recovery fails on
    an entry, nothing of it is committed and every line that was in sql.log
    is still there, followed by what was logged since, the record of the
    failure last; but [PRIMARY_DB_UP] is set to [True] all the same, and
    the next run of the job, whatever has become of the stores, finds the
    flag up and calls no replay: it returns whatever fuel a replay would be
    given, and when its probe returns it changes nothing. *)
Theorem failed_replay_outcome fuel w d w2 :
  PRIMARY_DB_UP w = false ->
  run "SELECT 1" [] (bound_store w) = Returned d ->
  sync_from fuel (sync_start (recovery_entry w)) (recovery_entry w)
    = Some (w2, false) ->
  exists w',
    check_primary_db fuel w = Some (w', None) /\
    PRIMARY_DB_UP w' = true /\
    (forall u, stores w' u = stores w u) /\
    (exists t e,
       sql_log w' =
         sql_log w ++ t
           ++ format_record ("Data synchronization failed: " ++ exn_str e)) /\
    (forall st,
       exists r,
         (forall fuel', check_primary_db fuel' (set_stores st w') = Some r) /\
         (forall d', run "SELECT 1" [] (st (engine_uri w')) = Returned d' ->
                     r = (set_stores st w', None))).
Proof.
  intros F R S. exists (set_flag true w2).
  pose proof (check_recovering fuel w d F R) as C. rewrite S in C.
  destruct (sync_from_failed _ _ _ _ S) as [St _].
  destruct (recovery_entry_frame w) as [_ [_ [Sr [t0 L0]]]].
  split; [exact C|]. split; [reflexivity|].
  split; [intros u; cbn [set_flag stores]; now rewrite St, Sr|].
  split.
  - assert (Ns : sync_start (recovery_entry w) <> Halted false)
      by (unfold sync_start; discriminate).
    destruct (sync_from_failed_log fuel _ _ _ Ns S) as [t [e L]].
    exists (t0 ++ t), e. cbn [set_flag sql_log].
    now rewrite L, L0, !append_assoc.
  - intros st.
    destruct (check_flag_up (set_stores st (set_flag true w2)) eq_refl)
      as [r [Hr Hd]].
    exists r. split; [exact Hr|].
    intros d' Rd. exact (Hd d' Rd).
Qed.

(** C6, as the code has it: a statement runs on the store of the configured
    URI, whatever [PRIMARY_DB_UP] is at the time; neither a statement nor a
    run of the job (a transition of the flag and the replay included)
    changes the URI or touches the store of another URI. *)
Theorem execute_on_bound_engine st ps w :
  snd (execute st ps w) = run st ps (stores w (engine_uri w)) /\
  (forall b, snd (execute st ps (set_flag b w)) = snd (execute st ps w)) /\
  engine_uri (fst (execute st ps w)) = engine_uri w /\
  (forall u, u <> engine_uri w -> stores (fst (execute st ps w)) u = stores w u) /\
  (forall fuel w' r,
     check_primary_db fuel w = Some (w', r) ->
     engine_uri w' = engine_uri w /\
     forall u, u <> engine_uri w -> stores w' u = stores w u).
Proof.
  split; [apply execute_outcome|].
  split; [intros b; now rewrite !execute_outcome|].
  split; [apply execute_uri|].
  split; [intros u; apply execute_other_stores|].
  intros fuel w' r C. split; [exact (check_uri _ _ _ _ C)|].
  intros u N. exact (check_other_stores fuel w w' r u N C).
Qed.

(** C7, as the code has it: a [SQLAlchemyError] raised by the probe is not
    propagated, and the job returns with [PRIMARY_DB_UP] set to [False]; an
    exception of another class is not caught: it leaves the job, and
    [PRIMARY_DB_UP] is what it was. *)
Theorem probe_exception_outcome fuel w c e :
  run "SELECT 1" [] (bound_store w) = Raised c e ->
  exists w',
    check_primary_db fuel w =
      Some (w', match e with
                | SQLAlchemyError _ => None
                | OtherException m => Some (OtherException m)
                end) /\
    PRIMARY_DB_UP w' =
      match e with
      | SQLAlchemyError _ => false
      | OtherException _ => PRIMARY_DB_UP w
      end.
Proof.
  intros R. unfold check_primary_db, session_execute. rewrite R.
  pose proof (session_execute_flag "SELECT 1" [] (bound_store w) w) as K.
  unfold session_execute in K. rewrite R in K.
  destruct c, e as [m|m]; cbn [fst] in K; eexists; split;
    try reflexivity; exact K.
Qed.

(** C4, as the code has it: the record the listener appends for a one-line
    ASCII statement is read back by the replay as one line, which is the
    statement text preceded by the time stamp and [" - "] of the log
    format; the parameters are not in the record and the replay executes
    the line with none. *)
Theorem logged_record_read_back st ps w view :
  PRIMARY_DB_UP w = false ->
  one_line asctime = true ->
  isascii asctime = true ->
  one_line st = true ->
  isascii st = true ->
  at_cursor_of (run st ps (bound_store w)) = true ->
  let w' := fst (execute st ps w) in
  let pos := String.length (sql_log w) in
  readline (string_drop pos (sql_log w')) = Some (format_record st, "") /\
  strip (format_record st) = strip (asctime ++ " - " ++ st) /\
  sync_step (Reading pos view) w' =
    match session_execute (strip (asctime ++ " - " ++ st)) [] view w' with
    | (w2, Returned d) =>
        (Reading (pos + String.length (format_record st)) d, w2)
    | (w2, Raised _ e) => (Handling e, w2)
    end.
Proof.
  intros F A _ S _ C w' pos.
  apply andb_prop in A as [A _], S as [S _].
  assert (L : string_drop pos (sql_log w') = format_record st).
  { unfold w', pos. rewrite execute_log, F, C. cbn [negb andb].
    apply drop_length_append. }
  assert (T : strip (format_record st) = strip (asctime ++ " - " ++ st)).
  { unfold format_record.
    replace (asctime ++ " - " ++ st ++ NL) with ((asctime ++ " - " ++ st) ++ NL)
      by now rewrite !append_assoc.
    apply strip_line_end. }
  split; [rewrite L; now apply readline_record|]. split; [exact T|].
  cbn [sync_step]. rewrite L, (readline_record st A S), T. reflexivity.
Qed.

(** ** Requests of other threads during a replay *)






(** ** Repeated probes, and the return of the primary *)

Lemma edges_repeat_false a b k :
  a || b = true -> edges a b (repeat false k) = 0.
Proof.
  intros H. induction k as [|k IH]; [reflexivity|].
  destruct k as [|k]; [reflexivity|].
  change (repeat false (S (S k))) with (false :: repeat false (S k)).
  change (edges a b (false :: repeat false (S k)))
    with ((if Bool.eqb false a && Bool.eqb false b then 1 else 0)
          + edges a b (repeat false (S k))).
  rewrite IH. destruct a, b; try discriminate; reflexivity.
Qed.

(** C8, as the code has it: probes that keep failing with a
    [SQLAlchemyError] from a state with the flag up make the job log one
    error record, on the first of them, and no error record afterwards; the
    flag goes down once and does not go up.  While the flag is down the
    listener still logs a record ['SELECT 1'] for each failed probe that
    reached the cursor.  On a store that rejects the records of the log, a
    following run whose probe returns does return, and the flag has then
    gone down once and up once. *)
Theorem repeated_failures_one_event fuel n w c m :
  PRIMARY_DB_UP w = true ->
  run "SELECT 1" [] (bound_store w) = Raised c (SQLAlchemyError m) ->
  exists wn,
    monitor fuel (S n) w = Some wn /\
    PRIMARY_DB_UP wn = false /\
    monitor_flags fuel (S n) w = repeat false (S n) /\
    edges true false (PRIMARY_DB_UP w :: monitor_flags fuel (S n) w) = 1 /\
    edges false true (PRIMARY_DB_UP w :: monitor_flags fuel (S n) w) = 0 /\
    emitted wn =
      (emitted w ++ [mkRecord ERROR ("Primary database is down: " ++ m)]
         ++ repeat (mkRecord INFO "SELECT 1") (if c then n else 0))%list /\
    filter is_error (emitted wn) =
      (filter is_error (emitted w)
         ++ [mkRecord ERROR ("Primary database is down: " ++ m)])%list /\
    (rejects_records -> lacks newline asctime = true ->
     forall st d,
       run "SELECT 1" [] (st (engine_uri wn)) = Returned d ->
       exists fuel0 w',
         (forall fuel', fuel0 <= fuel' ->
            check_primary_db fuel' (set_stores st wn) = Some (w', None)) /\
         PRIMARY_DB_UP w' = true /\
         let history :=
           (PRIMARY_DB_UP w :: monitor_flags fuel (S n) w
              ++ [PRIMARY_DB_UP w'])%list in
         edges true false history = 1 /\ edges false true history = 1).
Proof.
  intros F R. cbn [monitor monitor_flags].
  rewrite (check_failing_up fuel w c m F R).
  set (w1 := set_flag false (logging_error ("Primary database is down: " ++ m) w)).
  assert (F1 : PRIMARY_DB_UP w1 = false) by reflexivity.
  assert (R1 : run "SELECT 1" [] (bound_store w1) = Raised c (SQLAlchemyError m))
    by exact R.
  destruct (failing_while_down fuel c m n w1 F1 R1)
    as [wn [M [Fn [Sn [Un [En Hn]]]]]].
  exists wn. rewrite M, Hn, F1.
  assert (E : emitted wn =
    (emitted w ++ [mkRecord ERROR ("Primary database is down: " ++ m)]
       ++ repeat (mkRecord INFO "SELECT 1") (if c then n else 0))%list)
    by (rewrite En; unfold w1; cbn; now rewrite <- app_assoc).
  split; [reflexivity|]. split; [exact Fn|]. split; [reflexivity|].
  split.
  { rewrite F. change (false :: repeat false n) with (repeat false (S n)).
    change (edges true false (true :: repeat false (S n)))
      with (1 + edges true false (repeat false (S n))).
    now rewrite edges_repeat_false. }
  split.
  { rewrite F. change (false :: repeat false n) with (repeat false (S n)).
    change (edges false true (true :: repeat false (S n)))
      with (0 + edges false true (repeat false (S n))).
    now rewrite edges_repeat_false. }
  split; [exact E|]. split.
  { rewrite E, !filter_app. cbn [filter is_error lvl].
    assert (Z : forall k, filter is_error (repeat (mkRecord INFO "SELECT 1") k) = [])
      by (induction k; auto).
    now rewrite Z. }
  intros reject A st d Rs.
  destruct (recovery_replay_fails reject A (set_stores st wn) Fn)
    as [fuel0 [w2 H]].
  exists fuel0, (set_flag true w2). split.
  - intros fuel' Le.
    rewrite (check_recovering fuel' (set_stores st wn) d Fn Rs).
    now rewrite (H fuel' Le).
  - split; [reflexivity|]. rewrite F. cbn [set_flag PRIMARY_DB_UP].
    change (false :: repeat false n) with (repeat false (S n)).
    split.
    + change (edges true false (true :: repeat false (S n) ++ [true])%list)
        with (1 + edges true false (repeat false (S n) ++ [true])%list).
      now rewrite edges_fall_tail.
    + change (edges false true (true :: repeat false (S n) ++ [true])%list)
        with (0 + edges false true (repeat false (S n) ++ [true])%list).
      now rewrite edges_rise_tail.
Qed.

(** C10: on a store that rejects the records of the log, the replay returns
    from every state (with enough fuel, and then with any more).  Whether
    the body of its [try] completed or an exception was caught, what it
    returns is [None]; and an exception of either class raised by a line is
    caught and logged, not propagated. *)
Theorem sync_returns_none (reject : rejects_records)
    (A : lacks newline asctime = true) w :
  (exists fuel w',
     forall fuel', fuel <= fuel' ->
       sync_data_from_fallback_to_primary fuel' w = Some (w', PyNone)) /\
  (forall fuel w' completed,
     sync_from fuel (sync_start w) w = Some (w', completed) ->
     sync_data_from_fallback_to_primary fuel w = Some (w', PyNone)) /\
  (forall line rest c e,
     readline (sql_log w) = Some (line, rest) ->
     run (strip line) [] (bound_store w) = Raised c e ->
     exists w',
       (forall fuel', 2 <= fuel' ->
          sync_data_from_fallback_to_primary fuel' w = Some (w', PyNone)) /\
       exists pre,
         emitted w' =
           (pre ++ [mkRecord ERROR
                      ("Data synchronization failed: " ++ exn_str e)])%list).
Proof.
  assert (K : forall fuel w' b,
            sync_from fuel (sync_start w) w = Some (w', b) ->
            forall fuel', fuel <= fuel' ->
              sync_data_from_fallback_to_primary fuel' w = Some (w', PyNone)).
  { intros fuel w' b H fuel' L. unfold sync_data_from_fallback_to_primary.
    now rewrite (sync_from_le _ _ _ _ _ L H). }
  split; [|split].
  - destruct (PRIMARY_DB_UP w) eqn:F.
    + destruct (sync_from_up_returns (String.length (sql_log w)) 0
                  (bound_store w) w F) as [w' [b H]]; [simpl; lia|].
      exists (4 + String.length (sql_log w)), w'. exact (K _ _ _ H).
    + destruct (replay_returns_rejecting reject A (String.length (sql_log w)) 0
                  (sql_log w) [] (bound_store w) w F)
        as [w' [b [H _]]];
        [now rewrite append_empty_r | constructor | lia | lia |].
      exists (5 + String.length (sql_log w)), w'. exact (K _ _ _ H).
  - intros fuel w' b H. exact (K fuel w' b H fuel (le_n _)).
  - intros line rest c e L R.
    destruct c.
    + eexists. split.
      * apply (K 2 _ false).
        unfold sync_start. cbn [sync_from sync_step string_drop]. rewrite L.
        unfold session_execute. rewrite R. reflexivity.
      * exists (emitted (before_cursor_execute (strip line) [] w)).
        reflexivity.
    + eexists. split.
      * apply (K 2 _ false).
        unfold sync_start. cbn [sync_from sync_step string_drop]. rewrite L.
        unfold session_execute. rewrite R. reflexivity.
      * eexists. reflexivity.
Qed.

(** ** What is written to sql.log *)

(** X6: as long as the flag is up and the probe of every run of the job
    returns, the job and the listener log nothing, whatever statements the
    application executes and however they end: sql.log grows by the records
    of library code and by nothing else, and the flag stays up. *)
Theorem healthy_run_leaves_log l : forall w ws,
  PRIMARY_DB_UP w = true ->
  run_entries l w = Some ws ->
  (forall w', In w' (w :: ws) ->
     exists d, run "SELECT 1" [] (bound_store w') = Returned d) ->
  PRIMARY_DB_UP (last ws w) = true /\
  emitted (last ws w) = (emitted w ++ library_records l)%list /\
  sql_log (last ws w) = sql_log w ++ records (map message (library_records l)).
Proof.
  induction l as [|x t IH]; intros w ws F R P.
  - inversion R; subst. cbn. now rewrite app_nil_r, append_empty_r.
  - cbn [run_entries] in R.
    destruct (step_entry x w) as [w1|] eqn:S1; [|discriminate].
    destruct (run_entries t w1) as [ws1|] eqn:R1; [|discriminate].
    inversion R; subst ws; clear R.
    rewrite last_cons.
    assert (P1 : forall w', In w' (w1 :: ws1) ->
                   exists d, run "SELECT 1" [] (bound_store w') = Returned d)
      by (intros w' I; apply P; right; exact I).
    destruct x as [e|lv msg]; cbn [step_entry library_records] in *.
    + assert (K : PRIMARY_DB_UP w1 = true /\ sql_log w1 = sql_log w /\
                  emitted w1 = emitted w).
      { destruct e as [fuel|st ps|st]; cbn [step_event] in S1.
        - destruct (P w (or_introl eq_refl)) as [d Rd].
          rewrite (check_healthy fuel w d F Rd) in S1.
          inversion S1; subst w1. repeat split.
        - inversion S1; subst w1.
          destruct (execute_up st ps w F) as [L E].
          now rewrite execute_flag.
        - inversion S1; subst w1. repeat split. exact F. }
      destruct K as [F1 [L1 E1]].
      destruct (IH w1 ws1 F1 R1 P1) as [Ff [Ef Lf]].
      now rewrite Ff, Ef, Lf, L1, E1.
    + inversion S1; subst w1.
      destruct (IH (logging_emit lv msg w) ws1 F R1 P1) as [Ff [Ef Lf]].
      rewrite Ff, Ef, Lf. cbn [logging_emit emitted sql_log map message records].
      now rewrite <- app_assoc, append_assoc.
Qed.

(** X9: in every state the process can reach, sql.log holds what it held
    at start-up followed by one record for each logging call made since, by
    app.py or by library code, in order: the running program never clears
    the file, the truncation of line 54 being reached only by a replay that
    completes. *)
Theorem sql_log_only_grows url log0 stores0 w :
  reachable url log0 stores0 w ->
  sql_log w = log0 ++ records (map message (emitted w)).
Proof.
  induction 1 as [|fuel w w' r _ IH C|st ps w _ IH|st w _ IH|l msg w _ IH].
  - cbn. now rewrite append_empty_r.
  - exact (check_inv log0 fuel w w' r C IH).
  - now apply execute_inv.
  - exact IH.
  - now apply logging_emit_inv.
Qed.

(** ** The replay called while the flag is up, or on an empty file *)

(** X11: called while [PRIMARY_DB_UP] is [True] on a sql.log of ASCII text
    whose lines end in line feeds, the replay executes the lines of the
    file, stripped, in order on one session.  When they all return and the
    commit returns, it empties sql.log and logs the success.  At the first
    line that raises it stops, and when the commit raises it ends likewise:
    nothing is committed, and the failure is logged after the lines of
    sql.log, which stay.  It returns in all these cases. *)
Theorem replay_with_flag_up w :
  PRIMARY_DB_UP w = true ->
  lacks carriage_return (sql_log w) = true ->
  isascii (sql_log w) = true ->
  exists fuel,
    forall fuel', fuel <= fuel' ->
      sync_data_from_fallback_to_primary fuel' w =
      Some (match run_lines (file_lines (sql_log w)) (bound_store w) with
            | Returned d =>
                match commit_raises d with
                | None =>
                    logging_info "Data synchronization successful."
                      (truncate (commit d w))
                | Some e =>
                    logging_error
                      ("Data synchronization failed: " ++ exn_str e) w
                end
            | Raised _ e =>
                logging_error ("Data synchronization failed: " ++ exn_str e) w
            end,
            PyNone).
Proof.
  intros F _ _. exists (4 + String.length (sql_log w)). intros fuel' Le.
  unfold sync_data_from_fallback_to_primary, sync_start, file_lines.
  pose proof (sync_up_loop (String.length (sql_log w)) 0 (bound_store w) w F
                (le_n _)) as H.
  cbn [string_drop] in H.
  rewrite (sync_from_le _ _ _ _ _ Le H).
  destruct (run_lines _ _) as [d|c e]; [destruct (commit_raises d)|];
    reflexivity.
Qed.

(** X13: called on an empty sql.log, with the flag up or down, the replay
    executes nothing and goes to the commit of the session as it found it;
    every store holds afterwards what it held.  When the commit returns the
    replay completes, and sql.log then holds the record of the success and
    nothing else; when the commit raises, it holds the record of the
    failure and nothing else. *)
Theorem replay_of_empty_log fuel w :
  sql_log w = "" ->
  4 <= fuel ->
  exists w',
    sync_data_from_fallback_to_primary fuel w = Some (w', PyNone) /\
    PRIMARY_DB_UP w' = PRIMARY_DB_UP w /\
    (forall u, stores w' u = stores w u) /\
    let record :=
      match commit_raises (bound_store w) with
      | None => mkRecord INFO "Data synchronization successful."
      | Some e => mkRecord ERROR ("Data synchronization failed: " ++ exn_str e)
      end in
    sql_log w' = format_record (message record) /\
    emitted w' = (emitted w ++ [record])%list.
Proof.
  intros E Le.
  assert (K : forall w' b,
            sync_from 4 (sync_start w) w = Some (w', b) ->
            sync_data_from_fallback_to_primary fuel w = Some (w', PyNone)).
  { intros w' b H. unfold sync_data_from_fallback_to_primary.
    now rewrite (sync_from_le 4 fuel _ _ _ Le H). }
  destruct (commit_raises (bound_store w)) as [e|] eqn:C.
  - exists (logging_error ("Data synchronization failed: " ++ exn_str e) w).
    split.
    + apply (K _ false). unfold sync_start.
      cbn [sync_from sync_step string_drop]. rewrite E.
      cbn [readline sync_from sync_step]. rewrite C. reflexivity.
    + split; [reflexivity|]. split; [reflexivity|].
      cbn. rewrite E. split; reflexivity.
  - exists (logging_info "Data synchronization successful."
              (truncate (commit (bound_store w) w))).
    split.
    + apply (K _ true). unfold sync_start.
      cbn [sync_from sync_step string_drop]. rewrite E.
      cbn [readline sync_from sync_step]. rewrite C. reflexivity.
    + split; [reflexivity|]. split; [|split; reflexivity].
      intros u. cbn. unfold bound_store.
      destruct (String.eqb_spec u (engine_uri w)); [now subst|reflexivity].
Qed.

End Failover.

(** * The theorems at concrete inputs *)

(** C1 as stated fails: the replay started from [toy_outage] fails on its
    first line, yet the job leaves [PRIMARY_DB_UP] at [True] and sql.log is
    not what it was. *)
Lemma failed_replay_counterexample :
  exists w2 w',
    sync_from ToyDB toy_run toy_commit stamp 10
      (sync_start ToyDB (recovery_entry ToyDB stamp toy_outage))
      (recovery_entry ToyDB stamp toy_outage) = Some (w2, false) /\
    check_primary_db ToyDB toy_run toy_commit stamp 10 toy_outage = Some (w', None) /\
    PRIMARY_DB_UP w' = true /\
    sql_log w' <> sql_log toy_outage.
Proof.
  eexists. eexists. split; [reflexivity|]. split; [reflexivity|].
  split; [reflexivity|]. vm_compute. discriminate.
Qed.

(** [recovery_sets_flag_regardless] applies to the quiet outage: the replay
    does not complete and the flag is set all the same. *)
Lemma recovery_sets_flag_regardless_witness :
  exists w2,
    sync_from ToyDB toy_run toy_commit stamp 10
      (sync_start ToyDB (recovery_entry ToyDB stamp toy_quiet))
      (recovery_entry ToyDB stamp toy_quiet) = Some (w2, false) /\
    check_primary_db ToyDB toy_run toy_commit stamp 10 toy_quiet
      = Some (set_flag ToyDB true w2, None) /\
    PRIMARY_DB_UP (set_flag ToyDB true w2) = true.
Proof.
  eexists. split; [reflexivity|].
  eapply (recovery_sets_flag_regardless ToyDB toy_run toy_commit stamp 10 toy_quiet);
    reflexivity.
Defined.

(** C3 as stated fails: after a recovery whose replay did not complete (it
    fails on the record of the probe itself) the flag is up. *)
Lemma primary_without_replay_counterexample :
  exists w2 w',
    sync_from ToyDB toy_run toy_commit stamp 10
      (sync_start ToyDB (recovery_entry ToyDB stamp toy_quiet))
      (recovery_entry ToyDB stamp toy_quiet) = Some (w2, false) /\
    check_primary_db ToyDB toy_run toy_commit stamp 10 toy_quiet = Some (w', None) /\
    PRIMARY_DB_UP w' = true.
Proof.
  eexists. eexists. split; [reflexivity|]. split; reflexivity.
Qed.

(** [fallback_statements_logged] applies to a read, a statement the store
    rejects and an insert, executed in this order while the flag is down. *)
Lemma fallback_statements_logged_witness :
  PRIMARY_DB_UP toy_quiet = false /\
  sql_log
    (execute_all ToyDB toy_run stamp
       [("SELECT * FROM message", []); ("DROP TABLE message", []);
        (insert_hi, ["hi"])] toy_quiet)
  = sql_log toy_quiet ++
    fallback_records ToyDB toy_run stamp
      [("SELECT * FROM message", []); ("DROP TABLE message", []);
       (insert_hi, ["hi"])] toy_quiet.
Proof.
  split; [reflexivity|].
  apply (fallback_statements_logged ToyDB toy_run stamp). reflexivity.
Defined.

(** C2 as stated fails: while the flag is down a pure read is appended to
    sql.log, and so is a statement whose execution fails. *)
Lemma logged_read_and_failure_counterexample :
  let r := execute ToyDB toy_run stamp "SELECT * FROM message" [] toy_quiet in
  let f := execute ToyDB toy_run stamp "DROP TABLE message" [] toy_quiet in
  snd r = Returned (mkToy Up []) /\
  sql_log (fst r) = stamp ++ " - SELECT * FROM message" ++ NL /\
  snd f = Raised true (SQLAlchemyError "syntax error") /\
  sql_log (fst f) = stamp ++ " - DROP TABLE message" ++ NL.
Proof. repeat split. Qed.

(** C4 as stated fails: in the state [toy_fallen] the insert succeeds with
    its parameter, but the line the replay reads back is not the statement
    text, no parameter comes back, and executing the line on a fresh store
    raises. *)
Lemma round_trip_counterexample :
  let w' := fst (execute ToyDB toy_run stamp insert_hi ["hi"] toy_fallen) in
  let pos := String.length (sql_log toy_fallen) in
  snd (execute ToyDB toy_run stamp insert_hi ["hi"] toy_fallen)
    = Returned (mkToy Up [(insert_hi, ["hi"]); (insert_hi, ["hi"])]) /\
  (exists line, readline (string_drop pos (sql_log w')) = Some (line, "") /\
                strip line <> insert_hi) /\
  fst (sync_step ToyDB toy_run toy_commit stamp (Reading pos (mkToy Up [])) w')
    = Handling (SQLAlchemyError "syntax error").
Proof.
  split; [reflexivity|]. split; [|reflexivity].
  eexists. split; [reflexivity|]. vm_compute. discriminate.
Qed.

(** C6 as stated fails: the process starts with an unreachable primary, the
    job sets the flag down, and an insert issued afterwards is still sent to
    the primary's URI, where it raises; the store at the fallback URI, which
    would have accepted it, is not used. *)
Lemma stale_engine_counterexample :
  let w0 := startup ToyDB None "" (toy_stores (mkToy Down [])) in
  exists w1,
    check_primary_db ToyDB toy_run toy_commit stamp 10 w0 = Some (w1, None) /\
    PRIMARY_DB_UP w1 = false /\
    engine_uri w1 = primary_uri /\
    execute ToyDB toy_run stamp insert_hi ["hi"] w1
      = (w1, Raised false (SQLAlchemyError "connection refused")) /\
    toy_run insert_hi ["hi"] (stores w1 fallback_uri)
      = Returned (mkToy Up [(insert_hi, ["hi"])]).
Proof. eexists. repeat split. Qed.

(** C7 as stated fails: an exception of the probe that is not a
    [SQLAlchemyError] leaves the job, and the flag stays up. *)
Lemma probe_other_exception_counterexample :
  let w0 := startup ToyDB None "" (toy_stores (mkToy Broken [])) in
  check_primary_db ToyDB toy_run toy_commit stamp 10 w0
    = Some (w0, Some (OtherException "timed out")) /\
  PRIMARY_DB_UP w0 = true.
Proof. split; reflexivity. Qed.


(** The toy store rejects the records of the log: stripped, a record starts
    with the time stamp, which is the beginning of no statement it knows. *)
Lemma toy_rejects_records : rejects_records ToyDB toy_run stamp.
Proof.
  intros x d _. unfold format_record, stamp. cbn [append].
  match goal with
  | |- context [strip (String ?c ?s)] =>
      destruct (strip_head c s eq_refl) as [r E]; rewrite E
  end.
  destruct d as [[| |] rws]; cbn; eauto.
Qed.

(** [engine_uri_fixed] applies to the state reached from start-up by a
    failed probe and an insert. *)
Lemma engine_uri_fixed_witness :
  let w0 := startup ToyDB None "" (toy_stores (mkToy Down [])) in
  exists w1,
    check_primary_db ToyDB toy_run toy_commit stamp 10 w0 = Some (w1, None) /\
    PRIMARY_DB_UP w1 = false /\
    engine_uri (fst (execute ToyDB toy_run stamp insert_hi ["hi"] w1))
      = create_app_uri true None.
Proof.
  eexists. split; [reflexivity|]. split; [reflexivity|].
  apply (engine_uri_fixed ToyDB toy_run toy_commit stamp None ""
           (toy_stores (mkToy Down []))).
  apply reach_execute.
  eapply (reach_check ToyDB toy_run toy_commit stamp None "" _ 10);
    [apply reach_startup | reflexivity].
Defined.


(** [toy_fallen] is a state of the running program: the server goes away, a
    run of the job sees it, the server comes back, an insert is executed. *)
Lemma toy_fallen_reachable :
  reachable ToyDB toy_run toy_commit stamp None "" (toy_stores (mkToy Up []))
    toy_fallen.
Proof.
  apply (reach_execute ToyDB toy_run toy_commit stamp None ""
           (toy_stores (mkToy Up [])) insert_hi ["hi"]
           (set_stores ToyDB (toy_stores (mkToy Up []))
              (set_flag ToyDB false
                 (logging_error ToyDB stamp
                    "Primary database is down: connection refused"
                    (set_stores ToyDB (toy_stores (mkToy Down []))
                       (startup ToyDB None "" (toy_stores (mkToy Up [])))))))).
  apply reach_outside.
  apply (reach_check ToyDB toy_run toy_commit stamp None ""
           (toy_stores (mkToy Up [])) 10
           (set_stores ToyDB (toy_stores (mkToy Down []))
              (startup ToyDB None "" (toy_stores (mkToy Up [])))) _ None);
    [apply reach_outside; apply reach_startup | reflexivity].
Qed.

(** [failed_replay_outcome] applies to the run of the job that finds the
    primary back in the state [toy_fallen]: the probe returns and the replay
    fails on its first line. *)
Lemma failed_replay_outcome_witness :
  exists w',
    check_primary_db ToyDB toy_run toy_commit stamp 10 toy_fallen
      = Some (w', None) /\
    PRIMARY_DB_UP w' = true /\
    (forall u, stores w' u = stores toy_fallen u) /\
    (exists t e,
       sql_log w' =
         sql_log toy_fallen ++ t
           ++ format_record stamp
                ("Data synchronization failed: " ++ exn_str e)) /\
    (forall st,
       exists r,
         (forall fuel',
            check_primary_db ToyDB toy_run toy_commit stamp fuel'
              (set_stores ToyDB st w') = Some r) /\
         (forall d', toy_run "SELECT 1" [] (st (engine_uri w')) = Returned d' ->
                     r = (set_stores ToyDB st w', None))).
Proof.
  eapply (failed_replay_outcome ToyDB toy_run toy_commit stamp 10 toy_fallen);
    reflexivity.
Defined.

(** [logged_record_read_back] applies to an insert with one parameter,
    executed in the state [toy_fallen]. *)
Lemma logged_record_read_back_witness :
  PRIMARY_DB_UP toy_fallen = false /\
  one_line stamp = true /\ isascii stamp = true /\
  one_line insert_hi = true /\ isascii insert_hi = true /\
  at_cursor_of ToyDB (toy_run insert_hi ["hi"] (bound_store ToyDB toy_fallen))
    = true /\
  let w' := fst (execute ToyDB toy_run stamp insert_hi ["hi"] toy_fallen) in
  let pos := String.length (sql_log toy_fallen) in
  readline (string_drop pos (sql_log w'))
    = Some (format_record stamp insert_hi, "") /\
  strip (format_record stamp insert_hi) = strip (stamp ++ " - " ++ insert_hi) /\
  sync_step ToyDB toy_run toy_commit stamp (Reading pos (mkToy Up [])) w' =
    match session_execute ToyDB toy_run stamp
            (strip (stamp ++ " - " ++ insert_hi)) [] (mkToy Up []) w' with
    | (w2, Returned d) =>
        (Reading (pos + String.length (format_record stamp insert_hi)) d, w2)
    | (w2, Raised _ e) => (Handling e, w2)
    end.
Proof.
  do 6 (split; [reflexivity|]).
  apply (logged_record_read_back ToyDB toy_run toy_commit stamp insert_hi ["hi"]
           toy_fallen (mkToy Up [])); reflexivity.
Defined.


(** [execute_on_bound_engine] at an insert while the flag is down: the store
    at the fallback URI is not touched. *)
Lemma execute_on_bound_engine_witness :
  fallback_uri <> engine_uri toy_fallen /\
  stores (fst (execute ToyDB toy_run stamp insert_hi ["hi"] toy_fallen))
    fallback_uri = stores toy_fallen fallback_uri.
Proof.
  split; [discriminate|].
  apply (proj1 (proj2 (proj2 (proj2
           (execute_on_bound_engine ToyDB toy_run toy_commit stamp
              insert_hi ["hi"] toy_fallen))))).
  discriminate.
Defined.

(** [probe_exception_outcome] applies to an unreachable primary, whose
    probe raises a [SQLAlchemyError], and to one whose probe raises another
    exception. *)
Lemma probe_exception_outcome_witness :
  let down := startup ToyDB None "" (toy_stores (mkToy Down [])) in
  let broken := startup ToyDB None "" (toy_stores (mkToy Broken [])) in
  (toy_run "SELECT 1" [] (bound_store ToyDB down)
     = Raised false (SQLAlchemyError "connection refused") /\
   exists w',
     check_primary_db ToyDB toy_run toy_commit stamp 10 down = Some (w', None) /\
     PRIMARY_DB_UP w' = false) /\
  (toy_run "SELECT 1" [] (bound_store ToyDB broken)
     = Raised false (OtherException "timed out") /\
   exists w',
     check_primary_db ToyDB toy_run toy_commit stamp 10 broken
       = Some (w', Some (OtherException "timed out")) /\
     PRIMARY_DB_UP w' = PRIMARY_DB_UP broken).
Proof.
  split; (split; [reflexivity|]).
  - apply (probe_exception_outcome ToyDB toy_run toy_commit stamp 10
             (startup ToyDB None "" (toy_stores (mkToy Down []))) false
             (SQLAlchemyError "connection refused")).
    reflexivity.
  - apply (probe_exception_outcome ToyDB toy_run toy_commit stamp 10
             (startup ToyDB None "" (toy_stores (mkToy Broken []))) false
             (OtherException "timed out")).
    reflexivity.
Defined.

(** [repeated_failures_one_event] applies to three probes of an unreachable
    primary from the state at start-up. *)
Lemma repeated_failures_one_event_witness :
  let w0 := startup ToyDB None "" (toy_stores (mkToy Down [])) in
  PRIMARY_DB_UP w0 = true /\
  toy_run "SELECT 1" [] (bound_store ToyDB w0)
    = Raised false (SQLAlchemyError "connection refused") /\
  exists wn,
    monitor ToyDB toy_run toy_commit stamp 10 3 w0 = Some wn /\
    PRIMARY_DB_UP wn = false /\
    monitor_flags ToyDB toy_run toy_commit stamp 10 3 w0 = repeat false 3 /\
    edges true false
      (PRIMARY_DB_UP w0 :: monitor_flags ToyDB toy_run toy_commit stamp 10 3 w0)
      = 1 /\
    edges false true
      (PRIMARY_DB_UP w0 :: monitor_flags ToyDB toy_run toy_commit stamp 10 3 w0)
      = 0 /\
    emitted wn =
      (emitted w0
         ++ [mkRecord ERROR ("Primary database is down: " ++ "connection refused")]
         ++ repeat (mkRecord INFO "SELECT 1") 0)%list /\
    filter is_error (emitted wn) =
      (filter is_error (emitted w0)
         ++ [mkRecord ERROR ("Primary database is down: " ++ "connection refused")])%list /\
    (rejects_records ToyDB toy_run stamp -> lacks newline stamp = true ->
     forall st d,
       toy_run "SELECT 1" [] (st (engine_uri wn)) = Returned d ->
       exists fuel0 w',
         (forall fuel', fuel0 <= fuel' ->
            check_primary_db ToyDB toy_run toy_commit stamp fuel'
              (set_stores ToyDB st wn) = Some (w', None)) /\
         PRIMARY_DB_UP w' = true /\
         let history :=
           (PRIMARY_DB_UP w0
              :: monitor_flags ToyDB toy_run toy_commit stamp 10 3 w0
              ++ [PRIMARY_DB_UP w'])%list in
         edges true false history = 1 /\ edges false true history = 1).
Proof.
  split; [reflexivity|]. split; [reflexivity|].
  apply (repeated_failures_one_event ToyDB toy_run toy_commit stamp 10 2
           (startup ToyDB None "" (toy_stores (mkToy Down []))) false
           "connection refused"); reflexivity.
Defined.

(** C8 as stated fails: on a server that has gone away under an open
    connection the probe reaches the cursor and raises there; of three such
    probes from the state at start-up the first logs the error record, and
    the second and the third each log a record ['SELECT 1'], which sql.log
    holds after it. *)
Lemma failed_probes_logged_counterexample :
  let w0 := startup unit None "" (fun _ => tt) in
  exists w1 w3,
    monitor unit gone_run (fun _ => None) stamp 10 1 w0 = Some w1 /\
    monitor unit gone_run (fun _ => None) stamp 10 3 w0 = Some w3 /\
    PRIMARY_DB_UP w1 = false /\
    PRIMARY_DB_UP w3 = false /\
    emitted w3 =
      (emitted w1 ++ [mkRecord INFO "SELECT 1"; mkRecord INFO "SELECT 1"])%list /\
    sql_log w3 =
      sql_log w1 ++ format_record stamp "SELECT 1"
        ++ format_record stamp "SELECT 1".
Proof. do 2 eexists. repeat split. Qed.

(** [sync_returns_none] applies to [toy_fallen]: the toy store rejects the
    records of the log. *)
Lemma sync_returns_none_witness :
  (rejects_records ToyDB toy_run stamp /\ lacks newline stamp = true) /\
  (exists fuel w',
     forall fuel', fuel <= fuel' ->
       sync_data_from_fallback_to_primary ToyDB toy_run toy_commit stamp fuel'
         toy_fallen = Some (w', PyNone)).
Proof.
  split; [split; [exact toy_rejects_records | reflexivity]|].
  exact (proj1 (sync_returns_none ToyDB toy_run toy_commit stamp
                  toy_rejects_records eq_refl toy_fallen)).
Defined.

(** The assumption on the store is not idle in this model: on a store that
    accepted every line, the lines of the log among them, the replay called
    with the flag down on a file of one line would not return, whatever the
    number of steps it is given. *)
Remark accepting_store_replay_diverges :
  ~ exists fuel r,
      sync_data_from_fallback_to_primary (list string) lenient_run
        (fun _ => None) stamp fuel lenient_outage = Some r.
Proof.
  intros [fuel [r H]]. unfold sync_data_from_fallback_to_primary, sync_start in H.
  rewrite (sync_from_feeds_itself (list string) lenient_run (fun _ => None) stamp)
    in H.
  - discriminate.
  - intros st ps d. eexists. reflexivity.
  - reflexivity.
  - discriminate.
Qed.


(** * More of app.py at concrete inputs *)

(** [health_reports_last_probe] applies to the run of the job that finds the
    primary back after the outage of [toy_outage]. *)
Lemma health_reports_last_probe_witness :
  exists w',
    check_primary_db ToyDB toy_run toy_commit stamp 10 toy_outage = Some (w', None) /\
    health_check ToyDB w' =
      [("status", JString "ok"); ("primary_db_up", JBool true)].
Proof.
  eexists. split; [reflexivity|].
  apply (health_reports_last_probe ToyDB toy_run toy_commit stamp 10 toy_outage).
  reflexivity.
Defined.

(** [multiline_statement_split] applies to an insert written on two lines. *)
Lemma multiline_statement_split_witness :
  file_lines
    (string_drop (String.length (sql_log toy_quiet))
       (sql_log
          (fst (execute ToyDB toy_run stamp
                  ("INSERT INTO message" ++ NL ++ "VALUES (?)") ["hi"]
                  toy_quiet)))) =
  [stamp ++ " - " ++ "INSERT INTO message" ++ NL; "VALUES (?)" ++ NL].
Proof.
  apply (multiline_statement_split ToyDB toy_run stamp
           "INSERT INTO message" "VALUES (?)" ["hi"] toy_quiet);
    reflexivity.
Defined.

(** [replay_while_down_fails] applies to the replay called in the state
    [toy_outage]. *)
Lemma replay_while_down_fails_witness :
  exists w',
    sync_data_from_fallback_to_primary ToyDB toy_run toy_commit stamp 10 toy_outage
      = Some (w', PyNone) /\
    PRIMARY_DB_UP w' = false /\
    stores w' = stores toy_outage /\
    (exists t, sql_log w' = sql_log toy_outage ++ t) /\
    exists pre e,
      emitted w' =
        (pre ++ [mkRecord ERROR ("Data synchronization failed: " ++ exn_str e)])%list.
Proof.
  eexists. split; [reflexivity|].
  apply (replay_while_down_fails ToyDB toy_run toy_commit stamp 10 toy_outage _ PyNone);
    [reflexivity | discriminate | reflexivity].
Defined.

(** [recovery_synchronises_nothing] applies to the run of the job that finds
    the primary back after the outage of [toy_outage]. *)
Lemma recovery_synchronises_nothing_witness :
  exists w',
    check_primary_db ToyDB toy_run toy_commit stamp 10 toy_outage = Some (w', None) /\
    @None exn = None /\
    PRIMARY_DB_UP w' = true /\
    stores w' = stores toy_outage /\
    (exists t, t <> "" /\ sql_log w' = sql_log toy_outage ++ t) /\
    exists pre e,
      emitted w' =
        (pre ++ [mkRecord ERROR ("Data synchronization failed: " ++ exn_str e)])%list.
Proof.
  eexists. split; [reflexivity|].
  apply (recovery_synchronises_nothing ToyDB toy_run toy_commit stamp 10 toy_outage
           (mkToy Up [(insert_hi, ["hi"])]));
    reflexivity.
Defined.

(** [one_down_record_per_outage] applies to two outages, the first of them
    seen by two runs of the job. *)
Lemma one_down_record_per_outage_witness :
  let w0 := startup ToyDB None "" (toy_stores (mkToy Up [])) in
  let down := Outside ToyDB (toy_stores (mkToy Down [])) in
  let up := Outside ToyDB (toy_stores (mkToy Up [])) in
  exists ws,
    run_events ToyDB toy_run toy_commit stamp
      [down; Job ToyDB 10; Job ToyDB 10; up; Job ToyDB 10; down; Job ToyDB 10]
      w0 = Some ws /\
    length (filter is_down_record (emitted (last ws w0))) =
    length (filter is_down_record (emitted w0)) +
    edges true false (PRIMARY_DB_UP w0 :: map (fun x => PRIMARY_DB_UP x) ws).
Proof.
  eexists. split; [reflexivity|].
  apply (one_down_record_per_outage ToyDB toy_run toy_commit stamp
           [Outside ToyDB (toy_stores (mkToy Down [])); Job ToyDB 10;
            Job ToyDB 10; Outside ToyDB (toy_stores (mkToy Up []));
            Job ToyDB 10; Outside ToyDB (toy_stores (mkToy Down []));
            Job ToyDB 10]
           (startup ToyDB None "" (toy_stores (mkToy Up [])))).
  reflexivity.
Defined.

(** [monitor_returns_rejecting] applies to three runs of the job from
    [toy_outage]. *)
Lemma monitor_returns_rejecting_witness :
  (rejects_records ToyDB toy_run stamp /\ lacks newline stamp = true) /\
  exists fuel wn,
    forall fuel', fuel <= fuel' ->
      monitor ToyDB toy_run toy_commit stamp fuel' 3 toy_outage = Some wn.
Proof.
  split; [split; [exact toy_rejects_records | reflexivity]|].
  apply (monitor_returns_rejecting ToyDB toy_run toy_commit stamp toy_rejects_records
           eq_refl 3 toy_outage).
Defined.

(** [healthy_run_leaves_log] applies to two runs of the job with the records
    of the scheduler around them, an insert and a statement that fails, on a
    primary that answers. *)
Lemma healthy_run_leaves_log_witness :
  let w0 := startup ToyDB None "" (toy_stores (mkToy Up [])) in
  let l :=
    [Library ToyDB INFO "Scheduler started";
     Library ToyDB INFO "Running job";
     Program ToyDB (Job ToyDB 10);
     Library ToyDB INFO "Job executed successfully";
     Program ToyDB (Statement ToyDB insert_hi ["hi"]);
     Program ToyDB (Statement ToyDB "DROP TABLE message" []);
     Library ToyDB INFO "Running job";
     Program ToyDB (Job ToyDB 10);
     Library ToyDB INFO "Job executed successfully"] in
  exists ws,
    run_entries ToyDB toy_run toy_commit stamp l w0 = Some ws /\
    PRIMARY_DB_UP (last ws w0) = true /\
    emitted (last ws w0) = (emitted w0 ++ library_records ToyDB l)%list /\
    sql_log (last ws w0) =
      sql_log w0 ++ records stamp (map message (library_records ToyDB l)).
Proof.
  eexists. split; [reflexivity|].
  apply (healthy_run_leaves_log ToyDB toy_run toy_commit stamp
           [Library ToyDB INFO "Scheduler started";
            Library ToyDB INFO "Running job";
            Program ToyDB (Job ToyDB 10);
            Library ToyDB INFO "Job executed successfully";
            Program ToyDB (Statement ToyDB insert_hi ["hi"]);
            Program ToyDB (Statement ToyDB "DROP TABLE message" []);
            Library ToyDB INFO "Running job";
            Program ToyDB (Job ToyDB 10);
            Library ToyDB INFO "Job executed successfully"]
           (startup ToyDB None "" (toy_stores (mkToy Up []))));
    [reflexivity | reflexivity |].
  intros w' I.
  repeat (destruct I as [<-|I]; [eexists; reflexivity|]).
  destruct I.
Defined.

(** [sql_log_only_grows] applies to the state [toy_fallen] with a record of
    the scheduler after it. *)
Lemma sql_log_only_grows_witness :
  let w := logging_emit ToyDB stamp INFO "Running job" toy_fallen in
  sql_log w = "" ++ records stamp (map message (emitted w)).
Proof.
  apply (sql_log_only_grows ToyDB toy_run toy_commit stamp None ""
           (toy_stores (mkToy Up []))).
  apply reach_library. exact toy_fallen_reachable.
Defined.

(** [replay_with_flag_up] applies to [toy_replayable]. *)
Lemma replay_with_flag_up_witness :
  PRIMARY_DB_UP toy_replayable = true /\
  lacks carriage_return (sql_log toy_replayable) = true /\
  isascii (sql_log toy_replayable) = true /\
  exists fuel,
    forall fuel', fuel <= fuel' ->
      sync_data_from_fallback_to_primary ToyDB toy_run toy_commit stamp fuel'
        toy_replayable =
      Some (logging_info ToyDB stamp "Data synchronization successful."
              (truncate ToyDB
                 (commit ToyDB (mkToy Up [(insert_hi, [])]) toy_replayable)),
            PyNone).
Proof.
  do 3 (split; [reflexivity|]).
  apply (replay_with_flag_up ToyDB toy_run toy_commit stamp toy_replayable);
    reflexivity.
Defined.

(** [replay_of_empty_log] applies to the replay called in the state
    [toy_quiet], where the commit returns. *)
Lemma replay_of_empty_log_witness :
  exists w',
    sync_data_from_fallback_to_primary ToyDB toy_run toy_commit stamp 4 toy_quiet
      = Some (w', PyNone) /\
    PRIMARY_DB_UP w' = false /\
    (forall u, stores w' u = stores toy_quiet u) /\
    sql_log w' = format_record stamp "Data synchronization successful." /\
    emitted w' = [mkRecord INFO "Data synchronization successful."].
Proof.
  apply (replay_of_empty_log ToyDB toy_run toy_commit stamp 4 toy_quiet);
    [reflexivity | apply le_n].
Defined.
